(** * Verification of the video-generation orchestrator

    A shallow embedding of
    [video_generation/{utils,exceptions,models,config,generator}.py]:
    the URI rewrite, the file names, the exception classes, the response
    models, the settings read from the environment, the image upload, the
    submission, the poll loop, the streaming download with its retry
    decorator, the single-job orchestrator, the batch fan-out and the
    synchronous wrapper.

    Conventions.
    - A Python [str] is a [string] (a sequence of code points below 256).
    - Parsed JSON bodies are values of [json]; a JSON number is its exact
      rational value.
    - [time.time()] readings and [st_size / (1024 * 1024)] are exact
      rationals; the poll interval is an IEEE binary64 value ([float]), as
      [INITIAL_POLL_INTERVAL], [POLL_BACKOFF_MULTIPLIER] and
      [MAX_POLL_INTERVAL] are Python floats.
    - Exceptions are the instances of Python's [Exception] that the package
      and its collaborators (httpx, pydantic, the built-ins) raise; this is
      the class named by every [except Exception] handler of the package.
    - The outside world is explicit: the file system is a finite map from
      paths to contents, the network is an oracle that tells how the n-th
      request behaves, [os.environ] is a finite map from names to values.
    - [str(n)] of an integer is its decimal numeral ([pretty]). *)

From Stdlib Require Import ZArith QArith Floats String Ascii List Lia Permutation.
From stdpp Require Import base strings list gmap pretty.

#[local] Set Warnings "-inexact-float".

Local Open Scope string_scope.

(** ** Python string primitives used by the package *)

Module PyStr.

(** [s.startswith(p)] *)
Definition startswith (s p : string) : bool := String.prefix p s.

(** [s[n:]] *)
Fixpoint drop (n : nat) (s : string) : string :=
  match n, s with
  | O, _ => s
  | S _, EmptyString => EmptyString
  | S n', String _ s' => drop n' s'
  end.

(** [s[:n]] *)
Fixpoint take (n : nat) (s : string) : string :=
  match n, s with
  | O, _ => EmptyString
  | S _, EmptyString => EmptyString
  | S n', String c s' => String c (take n' s')
  end.

(** [s.endswith(p)] *)
Definition endswith (s p : string) : bool :=
  (String.length p <=? String.length s)%nat
  && String.eqb (drop (String.length s - String.length p) s) p.

(** [s.find(sub)], counted from position [i]; [None] is Python's [-1]. *)
Fixpoint find_from (sub s : string) (i : nat) : option nat :=
  if String.prefix sub s then Some i
  else match s with
       | EmptyString => None
       | String _ s' => find_from sub s' (S i)
       end.

Definition find (s sub : string) : option nat := find_from sub s 0.

(** [sub in s] *)
Definition contains (s sub : string) : bool :=
  match find s sub with Some _ => true | None => false end.

(** [s.replace("", new)]: [new] before every character and at the end. *)
Fixpoint interleave (new s : string) : string :=
  match s with
  | EmptyString => new
  | String c s' => new +:+ String c (interleave new s')
  end.

(** The left-to-right scan of [s.replace(old, new)] for a non-empty [old]:
    [skip] counts the characters of a matched occurrence that remain to be
    dropped; every non-overlapping occurrence is replaced. *)
Fixpoint replace_scan (old new s : string) (skip : nat) : string :=
  match s with
  | EmptyString => EmptyString
  | String c s' =>
      match skip with
      | S k => replace_scan old new s' k
      | O =>
          if String.prefix old s
          then new +:+ replace_scan old new s' (String.length old - 1)
          else String c (replace_scan old new s' 0)
      end
  end.

(** [s.replace(old, new)] *)
Definition replace (s old new : string) : string :=
  match old with
  | EmptyString => interleave new s
  | String _ _ => replace_scan old new s 0
  end.

(** [str.isspace] on one character (code points below 256). *)
Definition isspace (c : ascii) : bool :=
  let n := nat_of_ascii c in
  ((9 <=? n) && (n <=? 13) || (28 <=? n) && (n <=? 32)
   || (n =? 133) || (n =? 160))%nat.

Fixpoint lstrip (s : string) : string :=
  match s with
  | EmptyString => EmptyString
  | String c s' => if isspace c then lstrip s' else s
  end.

(** [s.strip()] *)
Definition strip (s : string) : string :=
  String.rev (lstrip (String.rev (lstrip s))).

End PyStr.

(** ** [utils.py] *)

Module Utils.
Import PyStr.

Definition GOOGLE_HOST : string := "https://generativelanguage.googleapis.com/".

(** [parse_video_uri(video_uri, base_url)], as written. *)
Definition parse_video_uri (video_uri base_url : string) : string :=
  let relative_path :=
    if startswith video_uri GOOGLE_HOST
    then replace video_uri GOOGLE_HOST ""
    else video_uri in
  let base_path :=
    if endswith base_url "/v1beta"
    then replace base_url "/v1beta" "/download"
    else base_url in
  base_path +:+ "/" +:+ relative_path.

(** The transform in the words of the specification: strip the vendor host
    prefix if present, rewrite the trailing [/v1beta] segment of the base to
    [/download] if present, join the two with a slash. *)
Definition parse_video_uri_spec (video_uri base_url : string) : string :=
  let relative_path :=
    if startswith video_uri GOOGLE_HOST
    then drop (String.length GOOGLE_HOST) video_uri
    else video_uri in
  let base_path :=
    if endswith base_url "/v1beta"
    then take (String.length base_url - String.length "/v1beta") base_url
         +:+ "/download"
    else base_url in
  base_path +:+ "/" +:+ relative_path.

End Utils.

(** ** JSON values and the Python operations the poller applies to them *)

#[local] Unset Elimination Schemes.
Inductive json : Type :=
| JNull
| JBool (b : bool)
| JNum (q : Q)
| JStr (s : string)
| JList (l : list json)
| JDict (d : list (string * json)).
#[local] Set Elimination Schemes.

(** A Python [dict] with string keys, in insertion order. *)
Abbreviation dict := (list (string * json)).

Module Py.

Fixpoint dict_lookup (d : dict) (k : string) : option json :=
  match d with
  | [] => None
  | (k', v) :: d' => if String.eqb k' k then Some v else dict_lookup d' k
  end.

(** [d[k] = v] on a dict: overwrite in place or append. *)
Fixpoint dict_set (d : dict) (k : string) (v : json) : dict :=
  match d with
  | [] => [(k, v)]
  | (k', v') :: d' =>
      if String.eqb k' k then (k', v) :: d' else (k', v') :: dict_set d' k v
  end.

(** Truth value of an object in an [if]. *)
Definition truthy (v : json) : bool :=
  match v with
  | JNull => false
  | JBool b => b
  | JNum q => negb (Qeq_bool q 0)
  | JStr s => negb (String.eqb s "")
  | JList l => match l with [] => false | _ => true end
  | JDict d => match d with [] => false | _ => true end
  end.

End Py.

(** ** [exceptions.py], and the foreign exceptions the package meets *)

Module Exceptions.

Inductive video_error : Type :=
| APIError | TimeoutError | DownloadError | ValidationError
| OperationNotFoundError.

Inductive builtin_error : Type :=
| KeyError | IndexError | TypeError | AttributeError | ValueError | OSError
| RuntimeError.

Inductive exn : Type :=
| VideoGenerationError (cls : video_error) (message : string) (details : dict)
    (* the package's own hierarchy; [details] is [self.details] *)
| HTTPStatusError (status_code : Z) (message : string)
    (* httpx: raised by [raise_for_status] on a 4xx/5xx response *)
| RequestError (message : string)
    (* httpx: transport-level failure (connection, timeout, protocol) *)
| PydanticValidationError (message : string)
| Builtin (cls : builtin_error) (message : string).

(** [isinstance(e, httpx.HTTPError)]: the base of both httpx families. *)
Definition is_httpx_HTTPError (e : exn) : bool :=
  match e with
  | HTTPStatusError _ _ | RequestError _ => true
  | _ => false
  end.

(** [hasattr(e, "details")] together with [e.details]. *)
Definition exc_details (e : exn) : option dict :=
  match e with
  | VideoGenerationError _ _ d => Some d
  | _ => None
  end.

(** [APIError.__init__(message, status_code, response_data)] *)
Definition mkAPIError (message : string) (status_code : option Z)
    (response_data : json) : exn :=
  let details : dict := [] in
  let details :=
    match status_code with
    | Some c => if (c =? 0)%Z then details
                else Py.dict_set details "status_code" (JNum (inject_Z c))
    | None => details
    end in
  let details :=
    if Py.truthy response_data
    then Py.dict_set details "response" response_data
    else details in
  VideoGenerationError APIError message details.

(** [TimeoutError.__init__(message, elapsed_time)] *)
Definition mkTimeoutError (message : string) (elapsed_time : option Q) : exn :=
  let details : dict :=
    match elapsed_time with
    | Some t => if Qeq_bool t 0 then [] else [("elapsed_time", JNum t)]
    | None => []
    end in
  VideoGenerationError TimeoutError message details.

(** [DownloadError.__init__(message, video_uri, partial_bytes)] *)
Definition mkDownloadError (message : string) (video_uri : option string)
    (partial_bytes : option Z) : exn :=
  let details : dict := [] in
  let details :=
    match video_uri with
    | Some u => if String.eqb u "" then details
                else Py.dict_set details "video_uri" (JStr u)
    | None => details
    end in
  let details :=
    match partial_bytes with
    | Some n => if (n =? 0)%Z then details
                else Py.dict_set details "partial_bytes_downloaded"
                       (JNum (inject_Z n))
    | None => details
    end in
  VideoGenerationError DownloadError message details.

(** [ValidationError.__init__(message, field)] *)
Definition mkValidationError (message : string) (field : option string) : exn :=
  let details : dict :=
    match field with
    | Some f => if String.eqb f "" then [] else [("field", JStr f)]
    | None => []
    end in
  VideoGenerationError ValidationError message details.

Section Str.

(** How Python formats a dict inside an f-string ([repr]). *)
Variable repr_dict : dict -> string.

(** [str(e)]; for the package's classes this is
    [VideoGenerationError.__str__]. *)
Definition exc_str (e : exn) : string :=
  match e with
  | VideoGenerationError _ message details =>
      match details with
      | [] => message
      | _ => message +:+ " | Details: " +:+ repr_dict details
      end
  | HTTPStatusError _ message => message
  | RequestError message => message
  | PydanticValidationError message => message
  | Builtin _ message => message
  end.

End Str.

End Exceptions.

(** ** [config.py] *)

Module Config.

Definition DEFAULT_MODEL : string := "veo-3.0-generate-preview".
Definition DEFAULT_MAX_WAIT_TIME : Z := 600.
Definition INITIAL_POLL_INTERVAL : float := 10%float.
Definition MAX_POLL_INTERVAL : float := 30%float.
Definition POLL_BACKOFF_MULTIPLIER : float := 1.2%float.
Definition MAX_RETRY_ATTEMPTS : nat := 3.
Definition RETRY_MIN_WAIT : Z := 1.
Definition RETRY_MAX_WAIT : Z := 10.
Definition DEFAULT_CONCURRENT_LIMIT : Z := 5.

End Config.

(** ** [models.py] *)

Module Models.

Record VideoRequest : Type := {
  prompt : string;
  model : string;
  output_path : option string;
  image_path : option string
}.

Record VideoResponse : Type := {
  success : bool;
  video_path : option string;
  operation_name : option string;
  video_uri : option string;
  file_size_mb : option Q;
  generation_time : option Q;
  error : option string;
  error_details : option dict
}.

(** The [is_success] property. *)
Definition is_success (r : VideoResponse) : bool :=
  success r && match video_path r with Some _ => true | None => false end.

Record BatchResult : Type := {
  total : Z;
  successful : Z;
  failed : Z;
  results : list VideoResponse;
  total_time : option Q
}.

Definition get_successful_videos (b : BatchResult) : list VideoResponse :=
  List.filter is_success (results b).

Definition get_failed_videos (b : BatchResult) : list VideoResponse :=
  List.filter (fun r => negb (is_success r)) (results b).

Definition has_failures (b : BatchResult) : bool := (0 <? failed b)%Z.

End Models.

(** ** Effects: exceptions and the outside world *)

Module Effects.
Import Exceptions.

(** A call either returns or raises. *)
Inductive result (A : Type) : Type :=
| Ok (a : A)
| Raise (e : exn).
Arguments Ok {A} a.
Arguments Raise {A} e.

Definition rbind {A B} (m : result A) (k : A -> result B) : result B :=
  match m with
  | Ok a => k a
  | Raise e => Raise e
  end.

(** What an awaited call may touch: regular files by path, the wall clock,
    the log of back-off sleeps of the retry decorator, and the log of the
    URLs requested so far. *)
Record world : Type := {
  files : gmap string string;
  clock : Q;
  sleeps : list Z;
  requests : list string
}.

Definition M (A : Type) : Type := world -> result A * world.

Definition ret {A} (a : A) : M A := fun w => (Ok a, w).

Definition raise {A} (e : exn) : M A := fun w => (Raise e, w).

Definition bind {A B} (m : M A) (k : A -> M B) : M B :=
  fun w =>
    match m w with
    | (Ok a, w') => k a w'
    | (Raise e, w') => (Raise e, w')
    end.

(** [try: body  except Exception as e: handler(e)] *)
Definition try_except {A} (body : M A) (handler : exn -> M A) : M A :=
  fun w =>
    match body w with
    | (Ok a, w') => (Ok a, w')
    | (Raise e, w') => handler e w'
    end.

Definition with_files (f : gmap string string -> gmap string string)
    (w : world) : world :=
  {| files := f (files w); clock := clock w;
     sleeps := sleeps w; requests := requests w |}.

(** [time.time()] *)
Definition time_time : M Q := fun w => (Ok (clock w), w).

(** The sleep between two attempts of a retried call. *)
Definition retry_sleep (seconds : Z) : M unit :=
  fun w =>
    (Ok tt, {| files := files w; clock := (clock w + inject_Z seconds)%Q;
               sleeps := sleeps w ++ [seconds]; requests := requests w |}).

(** Issue the next request: it is logged, and its number selects the
    behaviour the network oracle prescribes. *)
Definition send {R} (transport : nat -> string -> R) (url : string) : M R :=
  fun w =>
    (Ok (transport (length (requests w)) url),
     {| files := files w; clock := clock w;
        sleeps := sleeps w; requests := requests w ++ [url] |}).

(** [path.exists()] *)
Definition path_exists (p : string) : M bool :=
  fun w => (Ok (match files w !! p with Some _ => true | None => false end), w).

(** [open(path, "wb")]: create or truncate. *)
Definition open_wb (p : string) : M unit :=
  fun w => (Ok tt, with_files (fun fs => <[p := ""]> fs) w).

(** [f.write(chunk)] on the file open at [p]. *)
Definition write_chunk (p chunk : string) : M unit :=
  fun w =>
    (Ok tt,
     with_files (fun fs => <[p := default "" (fs !! p) +:+ chunk]> fs) w).

(** [path.stat().st_size] *)
Definition stat_size (p : string) : M nat :=
  fun w =>
    match files w !! p with
    | Some content => (Ok (String.length content), w)
    | None => (Raise (Builtin OSError "No such file or directory"), w)
    end.

(** [path.unlink()] *)
Definition unlink (p : string) : M unit :=
  fun w =>
    match files w !! p with
    | Some _ => (Ok tt, with_files (fun fs => delete p fs) w)
    | None => (Raise (Builtin OSError "No such file or directory"), w)
    end.

End Effects.

Declare Scope py_scope.
Delimit Scope py_scope with py.
Notation "x <- m ;; k" := (Effects.bind m (fun x => k))
  (at level 100, m at next level, right associativity) : py_scope.
Notation "m ;;; k" := (Effects.bind m (fun _ => k))
  (at level 100, right associativity) : py_scope.
Notation "'let!' x := m 'in' k" := (Effects.rbind m (fun x => k))
  (at level 100, x name, m at next level, right associativity) : py_scope.

(** ** [generator.py]: the poll loop *)

Module Poller.
Import Exceptions Effects Config.
Local Open Scope py_scope.

(** [needle in data] *)
Definition py_in (needle : string) (data : json) : result bool :=
  match data with
  | JDict d =>
      Ok (match Py.dict_lookup d needle with Some _ => true | None => false end)
  | JList l =>
      Ok (existsb (fun v => match v with
                            | JStr s => String.eqb s needle
                            | _ => false
                            end) l)
  | JStr s => Ok (PyStr.contains s needle)
  | _ => Raise (Builtin TypeError "argument is not iterable")
  end.

(** [data.get(key, default)] *)
Definition py_get (data : json) (key : string) (default : json) : result json :=
  match data with
  | JDict d => Ok (match Py.dict_lookup d key with Some v => v | None => default end)
  | _ => Raise (Builtin AttributeError "object has no attribute 'get'")
  end.

(** [v[key]] for a string key; [str(KeyError(key))] is the quoted key. *)
Definition subscript (v : json) (key : string) : result json :=
  match v with
  | JDict d =>
      match Py.dict_lookup d key with
      | Some x => Ok x
      | None => Raise (Builtin KeyError ("'" +:+ key +:+ "'"))
      end
  | JList _ => Raise (Builtin TypeError "list indices must be integers or slices, not str")
  | JStr _ => Raise (Builtin TypeError "string indices must be integers, not 'str'")
  | _ => Raise (Builtin TypeError "object is not subscriptable")
  end.

(** [v[0]] *)
Definition subscript0 (v : json) : result json :=
  match v with
  | JDict _ => Raise (Builtin KeyError "0")
  | JList [] => Raise (Builtin IndexError "list index out of range")
  | JList (x :: _) => Ok x
  | JStr EmptyString => Raise (Builtin IndexError "string index out of range")
  | JStr (String c _) => Ok (JStr (String c EmptyString))
  | _ => Raise (Builtin TypeError "object is not subscriptable")
  end.

(** [data["response"]["generateVideoResponse"]["generatedSamples"][0]["video"]["uri"]] *)
Definition extract_video_uri (data : json) : result json :=
  let! r := subscript data "response" in
  let! g := subscript r "generateVideoResponse" in
  let! s := subscript g "generatedSamples" in
  let! s0 := subscript0 s in
  let! v := subscript s0 "video" in
  subscript v "uri".

(** The inner [try] of a tick with a truthy [done]: only [KeyError] is
    turned into an [APIError] that carries the whole body. *)
Definition extract_or_api_error (data : json) : result json :=
  match extract_video_uri data with
  | Ok video_uri => Ok video_uri
  | Raise (Builtin KeyError msg) =>
      Raise (mkAPIError ("Could not extract video URI: " +:+ msg) None data)
  | Raise e => Raise e
  end.

(** How the status GET of one tick behaves. *)
Inductive get_outcome : Type :=
| GetFails (message : string)
    (* [client.get] raises an [httpx.RequestError]: connection failure,
       request timeout *)
| GetStatus (status_code : Z) (message : string)
    (* a 4xx/5xx response: [raise_for_status] raises [HTTPStatusError] *)
| GetNotJson (message : string)
    (* [response.json()] raises a [ValueError] *)
| GetJson (data : json).

(** One iteration of the loop as the environment drives it: the reading
    [time.time() - start_time] and the behaviour of the GET. *)
Record tick : Type := {
  elapsed : Q;
  get : get_outcome
}.

(** The statements under the outer [try] of one tick; [Ok None] is falling
    out of the [try] without returning. *)
Definition tick_body (g : get_outcome) : result (option json) :=
  match g with
  | GetFails m => Raise (RequestError m)
  | GetStatus c m => Raise (HTTPStatusError c m)
  | GetNotJson m => Raise (Builtin ValueError m)
  | GetJson data =>
      let! has_error := py_in "error" data in
      if has_error : bool then
        let! err := py_get data "error" JNull in
        Raise (mkAPIError "Video generation failed" None err)
      else
        let! done := py_get data "done" (JBool false) in
        if Py.truthy done then
          let! video_uri := extract_or_api_error data in
          Ok (Some video_uri)
        else Ok None
  end.

(** The outer [try] with its handler [except httpx.HTTPStatusError]. *)
Definition poll_tick (g : get_outcome) : result (option json) :=
  match tick_body g with
  | Raise (HTTPStatusError _ _) => Ok None
  | r => r
  end.

(** Python's [min(a, b)] on floats. *)
Definition py_min (a b : float) : float :=
  if PrimFloat.ltb b a then b else a.

(** [min(poll_interval * POLL_BACKOFF_MULTIPLIER, MAX_POLL_INTERVAL)] *)
Definition next_interval (poll_interval : float) : float :=
  py_min (PrimFloat.mul poll_interval POLL_BACKOFF_MULTIPLIER) MAX_POLL_INTERVAL.

(** How a poll run ends; [Pending] is a run still inside the loop when the
    script of ticks is used up. *)
Inductive poll_end : Type :=
| Returned (video_uri : json)
| Raised (e : exn)
| Pending.

(** The [while True] loop, driven by a script of ticks. The second
    component lists the arguments of [asyncio.sleep], in order. *)
Fixpoint poll_loop (max_wait_time : Z) (ticks : list tick)
    (poll_interval : float) : poll_end * list float :=
  match ticks with
  | [] => (Pending, [])
  | t :: rest =>
      if Qle_bool (inject_Z max_wait_time) (elapsed t) then
        (Raised (mkTimeoutError
                   ("Operation timed out after " +:+ pretty max_wait_time
                    +:+ " seconds")
                   (Some (elapsed t))), [])
      else
        match poll_tick (get t) with
        | Ok (Some video_uri) => (Returned video_uri, [])
        | Raise e => (Raised e, [])
        | Ok None =>
            let (r, slept) := poll_loop max_wait_time rest
                                (next_interval poll_interval) in
            (r, poll_interval :: slept)
        end
  end.

(** [_poll_operation(operation_name, max_wait_time)] on a script of ticks. *)
Definition _poll_operation (ticks : list tick) (max_wait_time : Z)
  : poll_end * list float :=
  poll_loop max_wait_time ticks INITIAL_POLL_INTERVAL.

(** The interval the loop holds after [n] sleeps. *)
Fixpoint interval (n : nat) : float :=
  match n with
  | O => INITIAL_POLL_INTERVAL
  | S k => next_interval (interval k)
  end.

End Poller.

(** ** [generator.py]: the retry decorator *)

Module Tenacity.
Import Exceptions Effects Config.
Local Open Scope py_scope.

(** [wait_exponential(multiplier=1, min=RETRY_MIN_WAIT, max=RETRY_MAX_WAIT)]
    after the attempt numbered [attempt_number] (from 1). *)
Definition wait_exponential (attempt_number : nat) : Z :=
  Z.max (Z.max 0 RETRY_MIN_WAIT)
        (Z.min (1 * 2 ^ (Z.of_nat attempt_number - 1)) RETRY_MAX_WAIT).

(** The decorator
    [@retry(retry=retry_if_exception_type(httpx.HTTPError),
            stop=stop_after_attempt(MAX_RETRY_ATTEMPTS), wait=..., reraise=True)]:
    [remaining] attempts are left after the one numbered [attempt_number]. *)
Fixpoint retry_loop {A} (remaining attempt_number : nat) (call : M A) : M A :=
  fun w =>
    match call w with
    | (Ok a, w') => (Ok a, w')
    | (Raise e, w') =>
        if is_httpx_HTTPError e then
          match remaining with
          | O => (Raise e, w')
          | S remaining' =>
              (retry_sleep (wait_exponential attempt_number) ;;;
               retry_loop remaining' (S attempt_number) call) w'
          end
        else (Raise e, w')
    end.

Definition retry {A} (call : M A) : M A :=
  retry_loop (MAX_RETRY_ATTEMPTS - 1) 1 call.

End Tenacity.

(** ** The HTTP client, as the generator meets it *)

Module Transport.
Import Exceptions.

(** The body of an error response: [e.response.json()] or, when that
    fails, [e.response.text]. *)
Inductive error_body : Type :=
| ErrorJson (data : json)
| ErrorText (text : string).

(** How one POST to the generation endpoint behaves. *)
Inductive post_outcome : Type :=
| PostFails (message : string)
    (* [client.post] raises an [httpx.RequestError] *)
| PostStatus (status_code : Z) (message : string) (body : error_body)
    (* a 4xx/5xx response: [raise_for_status] raises [HTTPStatusError] *)
| PostNotJson (message : string)
    (* [response.json()] raises a [ValueError] *)
| PostJson (status_code : Z) (data : json).

(** What can go wrong once a response is being consumed or written. *)
Inductive io_error : Type :=
| TransportFailure (message : string)   (* an [httpx.RequestError] *)
| DiskFailure (message : string).       (* an [OSError] *)

Definition exn_of_io (e : io_error) : exn :=
  match e with
  | TransportFailure m => RequestError m
  | DiskFailure m => Builtin OSError m
  end.

(** One step of [response.aiter_bytes]. *)
Inductive stream_event : Type :=
| Chunk (data : string)
| StreamFails (e : io_error).

(** The [content-length] header under [int(headers.get(..., 0))]. *)
Inductive content_length : Type :=
| LengthAbsent
| LengthMalformed (message : string)   (* [int] raises [ValueError] *)
| LengthValue (n : Z).

(** How one streaming GET behaves. *)
Inductive stream_outcome : Type :=
| StreamConnectFails (message : string)
    (* [client.stream] raises an [httpx.RequestError] before any response *)
| StreamStatus (status_code : Z) (message : string)
    (* a 4xx/5xx response: [raise_for_status] raises [HTTPStatusError] *)
| StreamOpens (header : content_length) (open_error : option string)
    (body : list stream_event).
    (* a 2xx response; [open_error] is an [OSError] of [mkdir] or [open] *)

(** The generator object: the fields the modelled methods read. The two
    oracles stand for [self.client]: they tell how the n-th request of the
    run behaves, a POST from its URL and JSON payload, a streaming GET from
    its URL. *)
Record VeoVideoGenerator : Type := {
  base_url : string;
  post : nat -> string -> json -> post_outcome;
  stream : nat -> string -> stream_outcome
}.

End Transport.

(** ** [generator.py]: the submission *)

Module Submitter.
Import Exceptions Effects Config Tenacity Transport.
Local Open Scope py_scope.

(** [{"instances": [instance_data]}] *)
Definition payload (prompt : string) (image_uri : option string) : json :=
  let instance_data : dict := [("prompt", JStr (PyStr.strip prompt))] in
  let instance_data :=
    match image_uri with
    | Some u => if String.eqb u "" then instance_data
                else Py.dict_set instance_data "image" (JDict [("uri", JStr u)])
    | None => instance_data
    end in
  JDict [("instances", JList [JDict instance_data])].

(** [data.get("name")] *)
Definition get_name (data : json) : result json :=
  match data with
  | JDict d => Ok (match Py.dict_lookup d "name" with Some v => v | None => JNull end)
  | _ => Raise (Builtin AttributeError "object has no attribute 'get'")
  end.

(** The undecorated body of [_initiate_generation]: only
    [httpx.HTTPStatusError] is caught, and turned into an [APIError]. *)
Definition initiate_body (self : VeoVideoGenerator) (prompt : string)
    (image_uri : option string) : M json :=
  if String.eqb prompt "" || String.eqb (PyStr.strip prompt) "" then
    raise (mkValidationError "Prompt cannot be empty" (Some "prompt"))
  else
    let url := base_url self +:+ "/models/" +:+ DEFAULT_MODEL
               +:+ ":predictLongRunning" in
    let body := payload prompt image_uri in
    response <- send (fun n u => post self n u body) url ;;
    match response with
    | PostFails m => raise (RequestError m)
    | PostStatus c m error_data =>
        raise (mkAPIError ("API request failed: " +:+ m) (Some c)
                 match error_data with
                 | ErrorJson data => data
                 | ErrorText text => JDict [("text", JStr text)]
                 end)
    | PostNotJson m => raise (Builtin ValueError m)
    | PostJson c data =>
        match get_name data with
        | Raise e => raise e
        | Ok operation_name =>
            if Py.truthy operation_name then ret operation_name
            else raise (mkAPIError "No operation name returned from API"
                          (Some c) data)
        end
    end.

(** [_initiate_generation(prompt, image_uri)], decorator included. *)
Definition _initiate_generation (self : VeoVideoGenerator) (prompt : string)
    (image_uri : option string) : M json :=
  retry (initiate_body self prompt image_uri).

End Submitter.

(** ** [generator.py]: the streaming download *)

Module Downloader.
Import Exceptions Effects Config Tenacity Transport.
Local Open Scope py_scope.


(** [async for chunk in response.aiter_bytes(...): if chunk: f.write(chunk)] *)
Fixpoint write_chunks (output_path : string) (body : list stream_event) : M unit :=
  match body with
  | [] => ret tt
  | Chunk data :: rest =>
      (if String.eqb data "" then ret tt else write_chunk output_path data) ;;;
      write_chunks output_path rest
  | StreamFails e :: _ => raise (exn_of_io e)
  end.

(** The [async with self.client.stream(...)] block. *)
Definition stream_to_file (self : VeoVideoGenerator)
    (download_url output_path : string) : M unit :=
  response <- send (stream self) download_url ;;
  match response with
  | StreamConnectFails m => raise (RequestError m)
  | StreamStatus c m => raise (HTTPStatusError c m)
  | StreamOpens header open_error body =>
      (match header with
       | LengthMalformed m => raise (Builtin ValueError m)
       | _ => ret tt
       end) ;;;
      (match open_error with
       | Some m => raise (Builtin OSError m)
       | None => open_wb output_path
       end) ;;;
      write_chunks output_path body
  end.

(** The statements under [try] in [_download_video]. *)
Definition download_try (self : VeoVideoGenerator)
    (download_url video_uri output_path : string) : M string :=
  stream_to_file self download_url output_path ;;;
  present <- path_exists output_path ;;
  if negb present then
    raise (mkDownloadError "Downloaded file does not exist" (Some video_uri) None)
  else
    file_size <- stat_size output_path ;;
    if (file_size =? 0)%nat then
      unlink output_path ;;;
      raise (mkDownloadError "Downloaded file is empty" (Some video_uri) None)
    else ret output_path.

(** The bytes a body delivers before it ends or fails. *)
Fixpoint delivered (body : list stream_event) : string :=
  match body with
  | [] => ""
  | Chunk data :: rest => data +:+ delivered rest
  | StreamFails _ :: _ => ""
  end.

(** The failure that interrupts a body, if any. *)
Fixpoint stream_failure (body : list stream_event) : option io_error :=
  match body with
  | [] => None
  | Chunk _ :: rest => stream_failure rest
  | StreamFails e :: _ => Some e
  end.

(** The content of a download that goes through: a 2xx response with a
    readable header, a file that opens, a body that ends without failure
    and is not empty. *)
Definition complete_content (response : stream_outcome) : option string :=
  match response with
  | StreamOpens (LengthMalformed _) _ _ => None
  | StreamOpens _ (Some _) _ => None
  | StreamOpens _ None body =>
      match stream_failure body with
      | Some _ => None
      | None => if String.eqb (delivered body) "" then None
                else Some (delivered body)
      end
  | _ => None
  end.

Section Download.

Variable repr_dict : dict -> string.

(** The two handlers of [_download_video], in source order. *)
Definition download_except (video_uri output_path : string) (e : exn) : M string :=
  match e with
  | HTTPStatusError status_code _ =>
      raise (mkDownloadError
               ("Download failed with status " +:+ pretty status_code)
               (Some video_uri) None)
  | _ =>
      present <- path_exists output_path ;;
      (if present : bool then unlink output_path else ret tt) ;;;
      raise (mkDownloadError ("Download failed: " +:+ exc_str repr_dict e)
               (Some video_uri) None)
  end.

(** The undecorated body of [_download_video]. *)
Definition download_body (self : VeoVideoGenerator)
    (video_uri output_path : string) : M string :=
  let download_url := Utils.parse_video_uri video_uri (base_url self) in
  try_except (download_try self download_url video_uri output_path)
             (download_except video_uri output_path).

(** [_download_video(video_uri, output_path)], decorator included. *)
Definition _download_video (self : VeoVideoGenerator)
    (video_uri output_path : string) : M string :=
  retry (download_body self video_uri output_path).

End Download.

End Downloader.

(** ** [generator.py]: the single-job orchestrator and the batch fan-out *)

Module Orchestrator.
Import Exceptions Effects Config Models.
Local Open Scope py_scope.

(** What the Python runtime and the libraries decide. *)
Record Runtime : Type := {
  repr_dict : dict -> string;
    (* [repr] of a dict, as an f-string prints it *)
  suffix_lower : string -> string;
    (* pathlib: [Path(p).suffix.lower()] *)
  generate_filename : string -> option nat -> Q -> string;
    (* [utils.generate_filename(prompt, index)] at a reading of the clock *)
  validation_message : list (string * string) -> string;
    (* [str] of pydantic's [ValidationError] for the failed fields *)
  cwd : string
    (* [Path.cwd()] *)
}.

(** The four awaited steps, as [generate_video_async] sees them: any
    behaviour at all, returning or raising, with any effect on the world. *)
Record Steps : Type := {
  _upload_image : string -> M (option string);
  _initiate_generation : string -> option string -> M string;
  _poll_operation : string -> M string;
  _download_video : string -> string -> M string
}.

(** The [prompt] field: the length bounds of [Field], then [validate_prompt]. *)
Definition check_prompt (v : string) : string + string :=
  if (String.length v <? 1)%nat then
    inr "String should have at least 1 character"
  else if (2000 <? String.length v)%nat then
    inr "String should have at most 2000 characters"
  else
    let prompt := PyStr.strip v in
    if String.eqb prompt "" then inr "Value error, Prompt cannot be empty or whitespace"
    else inl prompt.

(** [validate_output_path]; creating the parent directory leaves the
    regular files as they are. *)
Definition check_output_path (rt : Runtime) (v : option string)
  : option string + string :=
  match v with
  | Some p =>
      if String.eqb (suffix_lower rt p) ".mp4" then inl (Some p)
      else inr "Value error, Output file must have .mp4 extension"
  | None => inl None
  end.

Definition valid_extensions : list string :=
  [".jpg"; ".jpeg"; ".png"; ".gif"; ".bmp"; ".webp"].

(** [validate_image_path] *)
Definition check_image_path (rt : Runtime) (fs : gmap string string)
    (v : option string) : option string + string :=
  match v with
  | Some p =>
      match fs !! p with
      | None => inr ("Value error, Image file does not exist: " +:+ p)
      | Some _ =>
          if existsb (String.eqb (suffix_lower rt p)) valid_extensions
          then inl (Some p)
          else inr "Value error, Image file must have one of these extensions"
      end
  | None => inl None
  end.

Definition field_error {A} (field : string) (r : A + string)
  : list (string * string) :=
  match r with
  | inl _ => []
  | inr msg => [(field, msg)]
  end.

(** [VideoRequest(prompt=..., output_path=..., image_path=...)]: pydantic
    validates every field and raises once, with all the failures. *)
Definition new_VideoRequest (rt : Runtime) (prompt : string)
    (output_path image_path : option string) : M VideoRequest :=
  fun w =>
    let p := check_prompt prompt in
    let o := check_output_path rt output_path in
    let i := check_image_path rt (files w) image_path in
    match p, o, i with
    | inl p', inl o', inl i' =>
        (Ok {| Models.prompt := p'; model := "veo-3.0-generate-preview";
               Models.output_path := o'; Models.image_path := i' |}, w)
    | _, _, _ =>
        (Raise (PydanticValidationError
                  (validation_message rt
                     (field_error "prompt" p ++ field_error "output_path" o
                      ++ field_error "image_path" i))), w)
    end.

(** The response built by the [except Exception as e] handler. *)
Definition failure_response (rt : Runtime) (e : exn) (generation_time : Q)
  : VideoResponse :=
  {| success := false;
     video_path := None;
     operation_name := None;
     video_uri := None;
     file_size_mb := None;
     generation_time := Some generation_time;
     error := Some (exc_str (repr_dict rt) e);
     error_details := Some (default [] (exc_details e)) |}.

(** A response that reports the exception [e]: not a success, [error] is
    [str(e)], [error_details] is [e.details] when [e] has that attribute and
    the empty dict otherwise. *)
Definition failed_with (rt : Runtime) (resp : VideoResponse) (e : exn) : Prop :=
  success resp = false
  /\ error resp = Some (exc_str (repr_dict rt) e)
  /\ error_details resp = Some (default [] (exc_details e))
  /\ (forall d, exc_details e = Some d -> error_details resp = Some d).

(** The statements under [try] in [generate_video_async]. *)
Definition generate_video_try (rt : Runtime) (steps : Steps) (start_time : Q)
    (prompt : string) (output_path image_path : option string)
  : M VideoResponse :=
  request <- new_VideoRequest rt prompt output_path image_path ;;
  now <- time_time ;;
  let target :=
    match Models.output_path request with
    | Some p => p
    | None => generate_filename rt prompt None now
    end in
  image_uri <- match Models.image_path request with
               | Some p => _upload_image steps p
               | None => ret None
               end ;;
  operation_name <- _initiate_generation steps (Models.prompt request) image_uri ;;
  video_uri <- _poll_operation steps operation_name ;;
  video_path <- _download_video steps video_uri target ;;
  end_time <- time_time ;;
  size <- stat_size video_path ;;
  ret {| success := true;
         video_path := Some video_path;
         operation_name := Some operation_name;
         video_uri := Some video_uri;
         file_size_mb := Some (inject_Z (Z.of_nat size) / inject_Z (1024 * 1024))%Q;
         generation_time := Some (end_time - start_time)%Q;
         error := None;
         error_details := None |}.

(** [generate_video_async(prompt, output_path, image_path)] *)
Definition generate_video_async (rt : Runtime) (steps : Steps)
    (prompt : string) (output_path image_path : option string)
  : M VideoResponse :=
  start_time <- time_time ;;
  try_except
    (generate_video_try rt steps start_time prompt output_path image_path)
    (fun e =>
       end_time <- time_time ;;
       ret (failure_response rt e (end_time - start_time)%Q)).

(** A batch run completes with a result or an exception, or never does. *)
Inductive run (A : Type) : Type :=
| Completes (r : result A)
| Hangs.
Arguments Completes {A} r.
Arguments Hangs {A}.

(** pathlib's [dir / name] for a relative [name]. *)
Definition path_join (dir name : string) : string := dir +:+ "/" +:+ name.

(** The inner coroutine [_generate_with_limit(prompt, index)], once it
    holds the semaphore. *)
Definition _generate_with_limit (rt : Runtime) (steps : Steps)
    (output_dir_path : string) (image_paths : option (list (option string)))
    (prompt : string) (index : nat) : M VideoResponse :=
  now <- time_time ;;
  let output_file :=
    path_join output_dir_path (generate_filename rt prompt (Some index) now) in
  let image_path :=
    match image_paths with
    | Some (_ :: _ as l) => if (index <? length l)%nat then mjoin (l !! index) else None
    | _ => None
    end in
  generate_video_async rt steps prompt (Some output_file) image_path.

(** [asyncio.gather] over the tasks, with [return_exceptions=False], under
    one schedule:
    the tasks finish in the order [completion_order]; the result of task [i]
    is stored in slot [i]; the first exception raised reaches the caller. *)
Fixpoint gather (tasks : list (M VideoResponse)) (completion_order : list nat)
    (slots : list (option VideoResponse)) : M (list (option VideoResponse)) :=
  match completion_order with
  | [] => ret slots
  | i :: later =>
      match tasks !! i with
      | Some task =>
          r <- task ;;
          gather tasks later (<[i := Some r]> slots)
      | None => gather tasks later slots
      end
  end.

(** All slots filled: the awaited list of results. *)
Fixpoint collect (slots : list (option VideoResponse))
  : option (list VideoResponse) :=
  match slots with
  | [] => Some []
  | Some r :: rest => option_map (cons r) (collect rest)
  | None :: _ => None
  end.

(** [sum(1 for r in results if r.is_success)] *)
Definition count_successful (results : list VideoResponse) : Z :=
  fold_left (fun acc r => if is_success r then (acc + 1)%Z else acc) results 0%Z.

(** [Path(output_dir) if output_dir else Path.cwd()] *)
Definition output_directory (rt : Runtime) (output_dir : option string) : string :=
  match output_dir with
  | Some d => if String.eqb d "" then cwd rt else d
  | None => cwd rt
  end.

(** The list [tasks]: one coroutine per prompt, with its index. *)
Definition batch_tasks (rt : Runtime) (steps : Steps) (prompts : list string)
    (output_dir : option string) (image_paths : option (list (option string)))
  : list (M VideoResponse) :=
  imap (fun idx prompt =>
          _generate_with_limit rt steps (output_directory rt output_dir)
            image_paths prompt idx)
       prompts.

(** No slot is filled before the first task completes. *)
Definition empty_slots (tasks : list (M VideoResponse))
  : list (option VideoResponse) :=
  List.map (fun _ => None) tasks.

(** [generate_batch(prompts, output_dir, concurrent_limit, image_paths)]
    under the schedule [completion_order]. A negative limit is refused by
    [asyncio.Semaphore]; with a limit of zero no task is ever admitted.
    Directories are not part of the world: the run starts where
    [output_dir_path.mkdir(parents=True, exist_ok=True)] has returned. *)
Definition generate_batch (rt : Runtime) (steps : Steps)
    (prompts : list string) (output_dir : option string)
    (concurrent_limit : Z) (image_paths : option (list (option string)))
    (completion_order : list nat) (w : world) : run BatchResult * world :=
  let start_time := clock w in
  if (concurrent_limit <? 0)%Z then
    (Completes (Raise (Builtin ValueError "Semaphore initial value must be >= 0")), w)
  else
    let tasks := batch_tasks rt steps prompts output_dir image_paths in
    if (concurrent_limit =? 0)%Z && negb (Nat.eqb (length tasks) 0) then (Hangs, w)
    else
      match gather tasks completion_order (empty_slots tasks) w with
      | (Raise e, w') => (Completes (Raise e), w')
      | (Ok slots, w') =>
          match collect slots with
          | None => (Hangs, w')
          | Some results =>
              let total_time := (clock w' - start_time)%Q in
              let successful := count_successful results in
              let failed := (Z.of_nat (length results) - successful)%Z in
              (Completes (Ok {| total := Z.of_nat (length prompts);
                                Models.successful := successful;
                                Models.failed := failed;
                                Models.results := results;
                                total_time := Some total_time |}), w')
          end
      end.

End Orchestrator.

(** ** [utils.py]: file names and prompt validation *)

Module Filenames.
Import PyStr.

(** [s[0]] and [s[-1]], when there is one. *)
Definition first_char (s : string) : option ascii :=
  match s with
  | EmptyString => None
  | String c _ => Some c
  end.

Fixpoint last_char (s : string) : option ascii :=
  match s with
  | EmptyString => None
  | String c EmptyString => Some c
  | String _ s' => last_char s'
  end.

(** Every character of [s] satisfies [p]. *)
Fixpoint all_chars (p : ascii -> bool) (s : string) : bool :=
  match s with
  | EmptyString => true
  | String c s' => p c && all_chars p s'
  end.

(** [str.isalnum] on one character (code points below 256): the ASCII
    letters and digits, and the letters, superscript digits and fractions
    of Latin-1. *)
Definition isalnum (c : ascii) : bool :=
  let n := nat_of_ascii c in
  ((48 <=? n) && (n <=? 57) || (65 <=? n) && (n <=? 90)
   || (97 <=? n) && (n <=? 122)
   || (n =? 170) || (n =? 178) || (n =? 179) || (n =? 181) || (n =? 185)
   || (n =? 186) || (188 <=? n) && (n <=? 190)
   || (192 <=? n) && (n <=? 214) || (216 <=? n) && (n <=? 246)
   || (248 <=? n) && (n <=? 255))%nat.

(** The class [\w] of a [str] pattern. *)
Definition is_word (c : ascii) : bool := isalnum c || Ascii.eqb c "_".

(** [re.sub(r"[^\w\s-]", "", text)] *)
Fixpoint remove_special (text : string) : string :=
  match text with
  | EmptyString => EmptyString
  | String c s' =>
      if is_word c || isspace c || Ascii.eqb c "-"
      then String c (remove_special s')
      else remove_special s'
  end.

(** [re.sub(r"[\s_]+", "_", text)]: every maximal run of whitespace and
    underscores becomes one underscore; [in_run] tells that the character
    before belonged to a run. *)
Fixpoint collapse_runs (text : string) (in_run : bool) : string :=
  match text with
  | EmptyString => EmptyString
  | String c s' =>
      if isspace c || Ascii.eqb c "_"
      then if in_run then collapse_runs s' true
           else String "_" (collapse_runs s' true)
      else String c (collapse_runs s' false)
  end.

(** [s.lstrip(ch)] and [s.rstrip(ch)] for a single character. *)
Fixpoint lstrip_char (ch : ascii) (s : string) : string :=
  match s with
  | EmptyString => EmptyString
  | String c s' => if Ascii.eqb c ch then lstrip_char ch s' else s
  end.

Fixpoint rstrip_char (ch : ascii) (s : string) : string :=
  match s with
  | EmptyString => EmptyString
  | String c s' =>
      match rstrip_char ch s' with
      | EmptyString => if Ascii.eqb c ch then EmptyString else String c EmptyString
      | rest => String c rest
      end
  end.

(** [s[:n]] for an integer [n] of either sign. *)
Definition slice_to (n : Z) (s : string) : string :=
  if (0 <=? n)%Z then take (Z.to_nat n) s
  else take (String.length s - Z.to_nat (- n)) s.

(** [sanitize_filename(text, max_length)] *)
Definition sanitize_filename (text : string) (max_length : Z) : string :=
  let safe_text := remove_special text in
  let safe_text := collapse_runs safe_text false in
  let safe_text := rstrip_char "_" (lstrip_char "_" safe_text) in
  let safe_text :=
    if (max_length <? Z.of_nat (String.length safe_text))%Z
    then rstrip_char "_" (slice_to max_length safe_text)
    else safe_text in
  if String.eqb safe_text "" then "video" else safe_text.

(** The name before truncation. *)
Definition stripped_name (text : string) : string :=
  rstrip_char "_" (lstrip_char "_" (collapse_runs (remove_special text) false)).

(** [int(x)] for a float [x]: truncation towards zero. *)
Definition py_int (x : Q) : Z := Z.quot (Qnum x) (Zpos (Qden x)).

(** [generate_filename(prompt, index, timestamp)] at the clock reading
    [now]. *)
Definition generate_filename (prompt : string) (index : option Z)
    (timestamp : bool) (now : Q) : string :=
  let safe_prompt := sanitize_filename prompt 30 in
  let parts := ["veo"; safe_prompt] in
  let parts :=
    match index with
    | Some i => (parts ++ [pretty i])%list
    | None => parts
    end in
  let parts :=
    if timestamp then (parts ++ [pretty (py_int now)])%list else parts in
  String.concat "_" parts +:+ ".mp4".

(** [validate_prompt(prompt)] *)
Definition validate_prompt (prompt : string) : bool * option string :=
  if String.eqb prompt "" || String.eqb (strip prompt) "" then
    (false, Some "Prompt cannot be empty")
  else if (2000 <? String.length prompt)%nat then
    (false, Some "Prompt exceeds maximum length of 2000 characters")
  else if (String.length (strip prompt) <? 3)%nat then
    (false, Some "Prompt too short (minimum 3 characters)")
  else (true, None).

(** The shape of a sanitized name: made of alphanumerics, underscores and
    hyphens, not empty, no underscore at either end and no two underscores
    in a row. *)
Definition name_char (c : ascii) : bool :=
  isalnum c || Ascii.eqb c "_" || Ascii.eqb c "-".

Definition is_underscore (c : option ascii) : bool :=
  match c with
  | Some c => Ascii.eqb c "_"
  | None => false
  end.

Fixpoint single_underscores (s : string) : bool :=
  match s with
  | EmptyString => true
  | String c s' =>
      negb (Ascii.eqb c "_" && is_underscore (first_char s'))
      && single_underscores s'
  end.

Definition clean_name (s : string) : Prop :=
  s <> ""
  /\ all_chars name_char s = true
  /\ is_underscore (first_char s) = false
  /\ is_underscore (last_char s) = false
  /\ single_underscores s = true.

(** The characters of a printed integer: digits and the sign. *)
Definition printed (c : ascii) : bool :=
  name_char c && negb (Ascii.eqb c "_").

(** The characters of a generated file name; none of them separates path
    components. *)
Definition filename_char (c : ascii) : bool :=
  name_char c || Ascii.eqb c ".".

End Filenames.

(** ** [generator.py]: the image upload *)

Module Uploader.
Import Exceptions Effects Config Tenacity Transport.
Local Open Scope py_scope.

(** What the upload needs of pathlib, of [repr] and of [self.client]: the
    last component of a path, the way a path is printed inside the message
    of an [OSError] ([repr] of its string), and how the n-th request of the
    run behaves when it is a multipart POST of [(name, data, content_type)]
    to a URL. *)
Record FilesClient : Type := {
  path_name : string -> string;
  path_repr : string -> string;
  post_files : nat -> string -> string * string * string -> post_outcome
}.

(** [str] of the [FileNotFoundError] that [open(p)] raises. *)
Definition no_such_file (client : FilesClient) (p : string) : string :=
  "[Errno 2] No such file or directory: " +:+ path_repr client p.

(** [open(image_path, "rb")] followed by [f.read()] *)
Definition read_rb (client : FilesClient) (p : string) : M string :=
  fun w =>
    match files w !! p with
    | Some content => (Ok content, w)
    | None => (Raise (Builtin OSError (no_such_file client p)), w)
    end.

(** A call that touches nothing. *)
Definition pure {A} (r : result A) : M A := fun w => (r, w).

(** The statements under [try] in [_upload_image]. *)
Definition upload_try (self : VeoVideoGenerator) (client : FilesClient)
    (image_path : string) : M (option json) :=
  image_data <- read_rb client image_path ;;
  let upload_url := base_url self +:+ "/files" in
  let file := (path_name client image_path, image_data, "image/jpeg") in
  response <- send (fun n u => post_files client n u file) upload_url ;;
  match response with
  | PostFails m => raise (RequestError m)
  | PostStatus c m _ => raise (HTTPStatusError c m)
  | PostNotJson m => raise (Builtin ValueError m)
  | PostJson _ upload_result =>
      file <- pure (Poller.py_get upload_result "file" (JDict [])) ;;
      file_uri <- pure (Poller.py_get file "uri" JNull) ;;
      if Py.truthy file_uri then ret (Some file_uri) else ret None
  end.


Section Upload.

Variable repr_dict : dict -> string.

(** The undecorated body: every exception becomes an [APIError]. *)
Definition upload_body (self : VeoVideoGenerator) (client : FilesClient)
    (image_path : string) : M (option json) :=
  try_except (upload_try self client image_path)
    (fun e =>
       raise (mkAPIError ("Image upload failed: " +:+ exc_str repr_dict e)
                None JNull)).

(** [_upload_image(image_path)], decorator included. *)
Definition _upload_image (self : VeoVideoGenerator) (client : FilesClient)
    (image_path : string) : M (option json) :=
  retry (upload_body self client image_path).

End Upload.

End Uploader.

(** ** [config.py] and the constructor of the generator *)

Module Environment.
Import Exceptions Effects.
Local Open Scope py_scope.

Definition DEFAULT_BASE_URL : string := "https://api.thucchien.ai/gemini/v1beta".
Definition API_KEY_ENV_VAR : string := "THUCCHIEN_API_KEY".
Definition LITELLM_BASE_URL_ENV : string := "LITELLM_BASE_URL".
Definition LITELLM_API_KEY_ENV : string := "LITELLM_API_KEY".
Definition DEFAULT_REQUEST_TIMEOUT : Z := 30.

(** [os.environ] *)
Definition environ : Type := gmap string string.

(** [a or b] where [a] is a string or [None]: [b] is evaluated only when
    [a] is [None] or empty. *)
Definition py_or {B} (a : option string) (b : B) (k : string -> B) : B :=
  match a with
  | Some s => if String.eqb s "" then b else k s
  | None => b
  end.

(** [get_api_key()] *)
Definition get_api_key (env : environ) : result string :=
  let api_key : option string :=
    py_or (env !! API_KEY_ENV_VAR) (env !! LITELLM_API_KEY_ENV) Some in
  py_or api_key
    (Raise (Builtin ValueError
              ("API key not found. Set " +:+ API_KEY_ENV_VAR +:+ " or "
               +:+ LITELLM_API_KEY_ENV +:+ " environment variable.")))
    Ok.

(** [get_base_url()] *)
Definition get_base_url (env : environ) : string :=
  default DEFAULT_BASE_URL (env !! LITELLM_BASE_URL_ENV).

(** The fields that [__init__] sets. *)
Record Settings : Type := {
  base_url : string;
  api_key : string;
  timeout : Z;
  max_retries : nat;
  headers : list (string * string)
}.

(** [VeoVideoGenerator.__init__(base_url, api_key)] with the default
    [timeout] and [max_retries]. *)
Definition __init__ (env : environ) (base_url api_key : option string)
  : result Settings :=
  let base_url := py_or base_url (get_base_url env) id in
  let! api_key := py_or api_key (get_api_key env) Ok in
  Ok {| base_url := base_url;
        api_key := api_key;
        timeout := DEFAULT_REQUEST_TIMEOUT;
        max_retries := Config.MAX_RETRY_ATTEMPTS;
        headers := [("x-goog-api-key", api_key);
                    ("Content-Type", "application/json")] |}.

End Environment.

(** ** [generator.py]: the synchronous wrapper *)

Module Wrapper.
Import Exceptions Effects Models Orchestrator Environment.
Local Open Scope py_scope.

(** The string that [_run] returns for a response. *)
Definition path_or_empty (response : VideoResponse) : string :=
  if is_success response then
    match video_path response with
    | Some p => p
    | None => ""
    end
  else "".

(** [asyncio.run(coro)]: refused when the calling thread already runs an
    event loop, and the coroutine is then never started. *)
Definition asyncio_run {A} (loop_running : bool) (coro : M A) : M A :=
  if loop_running then
    raise (Builtin RuntimeError
             "asyncio.run() cannot be called from a running event loop")
  else coro.

(** The coroutine [_run()]; the steps are those of the generator that
    [__init__] built. *)
Definition _run (env : environ) (rt : Runtime)
    (steps_of : Settings -> Steps) (prompt : string)
    (output_path base_url api_key : option string) : M string :=
  match __init__ env base_url api_key with
  | Raise e => raise e
  | Ok gen =>
      response <- generate_video_async rt (steps_of gen) prompt output_path None ;;
      ret (path_or_empty response)
  end.

(** [generate_video(prompt, model, output_path, base_url, api_key)], called
    from a thread that runs an event loop or not. *)
Definition generate_video (loop_running : bool) (env : environ) (rt : Runtime)
    (steps_of : Settings -> Steps) (prompt model : string)
    (output_path base_url api_key : option string) : M string :=
  asyncio_run loop_running
    (_run env rt steps_of prompt output_path base_url api_key).

End Wrapper.

(** ** A concrete runtime and concrete worlds for the worked examples *)

Module Demo.
Import Exceptions Effects Models Orchestrator.

(** Dicts print as their keys; a path has the suffix it ends with; file
    names are numbered. *)
Definition runtime : Runtime := {|
  repr_dict := fun d => "{" +:+ String.concat ", " (List.map fst d) +:+ "}";
  suffix_lower := fun p =>
    if PyStr.endswith p ".mp4" then ".mp4"
    else if PyStr.endswith p ".jpg" then ".jpg" else "";
  generate_filename := fun _ index _ =>
    match index with
    | Some i => "veo_video_" +:+ pretty i +:+ ".mp4"
    | None => "veo_video.mp4"
    end;
  validation_message := fun errs => String.concat "; " (List.map snd errs);
  cwd := "/work"
|}.

Definition empty_world : world :=
  {| files := ∅; clock := 0; sleeps := []; requests := [] |}.

(** A generator whose first streaming GET cannot connect and whose later
    ones deliver two chunks. *)
Definition flaky_generator : Transport.VeoVideoGenerator := {|
  Transport.base_url := "https://api.thucchien.ai/gemini/v1beta";
  Transport.post := fun _ _ _ => Transport.PostFails "unreachable";
  Transport.stream := fun n _ =>
    match n with
    | O => Transport.StreamConnectFails "connection reset"
    | _ => Transport.StreamOpens (Transport.LengthValue 6) None
             [Transport.Chunk "abc"; Transport.Chunk "def"]
    end
|}.

(** A generator whose streaming GET always delivers two chunks. *)
Definition steady_generator : Transport.VeoVideoGenerator := {|
  Transport.base_url := "https://api.thucchien.ai/gemini/v1beta";
  Transport.post := fun _ _ _ => Transport.PostFails "unreachable";
  Transport.stream := fun _ _ =>
    Transport.StreamOpens (Transport.LengthValue 6) None
      [Transport.Chunk "abc"; Transport.Chunk "def"]
|}.

(** Steps that succeed except for the prompt ["bad"], whose submission is
    refused by the API. *)
Definition steps : Steps := {|
  _upload_image := fun _ => ret (Some "files/img");
  _initiate_generation := fun prompt _ =>
    if String.eqb prompt "bad"
    then raise (mkAPIError "API request failed" (Some 400%Z) JNull)
    else ret ("operations/" +:+ prompt);
  _poll_operation := fun op => ret ("files/" +:+ op);
  _download_video :=
    Downloader._download_video (repr_dict runtime) steady_generator
|}.

(** A generator whose streaming GET answers 200 with an empty body. *)
Definition empty_body_generator : Transport.VeoVideoGenerator := {|
  Transport.base_url := "https://api.thucchien.ai/gemini/v1beta";
  Transport.post := fun _ _ _ => Transport.PostFails "unreachable";
  Transport.stream := fun _ _ =>
    Transport.StreamOpens (Transport.LengthValue 0) None []
|}.

(** A generator whose streaming GET breaks after the first chunk. *)
Definition broken_stream_generator : Transport.VeoVideoGenerator := {|
  Transport.base_url := "https://api.thucchien.ai/gemini/v1beta";
  Transport.post := fun _ _ _ => Transport.PostFails "unreachable";
  Transport.stream := fun _ _ =>
    Transport.StreamOpens (Transport.LengthValue 6) None
      [Transport.Chunk "abc";
       Transport.StreamFails (Transport.TransportFailure "peer closed connection")]
|}.

(** A generator whose every POST times out, with an exception that has no
    message. *)
Definition timing_out_generator : Transport.VeoVideoGenerator := {|
  Transport.base_url := "https://api.thucchien.ai/gemini/v1beta";
  Transport.post := fun _ _ _ => Transport.PostFails "";
  Transport.stream := fun _ _ => Transport.StreamConnectFails ""
|}.

(** A generator whose first POST cannot connect and whose later ones start
    an operation. *)
Definition flaky_submitter : Transport.VeoVideoGenerator := {|
  Transport.base_url := "https://api.thucchien.ai/gemini/v1beta";
  Transport.post := fun n _ _ =>
    match n with
    | O => Transport.PostFails "connection reset"
    | _ => Transport.PostJson 200 (JDict [("name", JStr "operations/op1")])
    end;
  Transport.stream := fun _ _ => Transport.StreamConnectFails "unreachable"
|}.

(** An operation name as the f-string of the poll URL prints it. *)
Definition name_str (v : json) : string :=
  match v with
  | JStr s => s
  | _ => "None"
  end.

(** Steps whose submission is the package's [_initiate_generation] on a
    network where every POST times out. *)
Definition silent_timeout_steps : Steps := {|
  _upload_image := fun _ => ret None;
  _initiate_generation := fun prompt image_uri =>
    Effects.bind
      (Submitter._initiate_generation timing_out_generator prompt image_uri)
      (fun name => ret (name_str name));
  _poll_operation := fun op => ret op;
  _download_video :=
    Downloader._download_video (repr_dict runtime) steady_generator
|}.

(** A poll body whose job is done and whose samples list is empty. *)
Definition done_without_samples : json :=
  JDict [("done", JBool true);
         ("response",
          JDict [("generateVideoResponse",
                  JDict [("generatedSamples", JList [])])])].

(** A poll body whose job is done, with the expected nested path. *)
Definition done_with_uri : json :=
  JDict [("done", JBool true);
         ("response",
          JDict [("generateVideoResponse",
                  JDict [("generatedSamples",
                          JList [JDict [("video",
                                         JDict [("uri", JStr "files/v1")])]])])])].

End Demo.

(** ** Concrete inputs for the further properties *)

Module Scenarios.
Import Exceptions Effects Models Orchestrator.

(** A poll body whose job is still running. *)
Definition not_done : json := JDict [("name", JStr "operations/op1")].

(** A poll body that reports an error although it is done and has a URI. *)
Definition done_with_error : dict :=
  [("done", JBool true);
   ("error", JDict [("code", JNum (inject_Z 13))]);
   ("response",
    JDict [("generateVideoResponse",
            JDict [("generatedSamples",
                    JList [JDict [("video",
                                   JDict [("uri", JStr "files/v1")])]])])])].

(** A script of two pending ticks, a completing one and one more. *)
Definition three_ticks : list Poller.tick :=
  [ {| Poller.elapsed := 0; Poller.get := Poller.GetStatus 503 "unavailable" |};
    {| Poller.elapsed := 10; Poller.get := Poller.GetJson not_done |};
    {| Poller.elapsed := 22; Poller.get := Poller.GetJson Demo.done_with_uri |};
    {| Poller.elapsed := 36; Poller.get := Poller.GetFails "never reached" |} ].



(** A world that already holds two files. *)
Definition world_with_files : world :=
  {| files := {[ "/work/out.mp4" := "old"; "/work/keep.txt" := "notes" ]};
     clock := 0; sleeps := []; requests := [] |}.



(** An environment whose first key variable is set but empty. *)
Definition env_with_empty_key : Environment.environ :=
  {[ "THUCCHIEN_API_KEY" := ""; "LITELLM_API_KEY" := "sk-2" ]}.

End Scenarios.

(** * Properties *)

(** ** Strings *)

Section StringFacts.
Import PyStr.

Lemma append_nil_l (t : string) : "" +:+ t = t.
Proof. reflexivity. Qed.

Lemma append_cons (c : ascii) (s t : string) :
  String c s +:+ t = String c (s +:+ t).
Proof. reflexivity. Qed.

Lemma append_empty_r (s : string) : s +:+ "" = s.
Proof.
  induction s as [|c s IH]; [reflexivity|].
  now rewrite append_cons, IH.
Qed.

Lemma prefix_cons_inv (c : ascii) (a : string) (s : string) :
  String.prefix (String c a) s = true ->
  exists s', s = String c s' /\ String.prefix a s' = true.
Proof.
  destruct s as [|d s]; simpl; [discriminate|].
  destruct (ascii_dec c d) as [->|]; [|discriminate].
  intros H. now exists s.
Qed.

Lemma prefix_split (a s : string) :
  String.prefix a s = true -> s = a +:+ drop (String.length a) s.
Proof.
  revert s. induction a as [|c a IH]; intros s H.
  - reflexivity.
  - apply prefix_cons_inv in H as (s' & -> & H).
    cbn [String.length drop]. rewrite append_cons.
    f_equal. now apply IH.
Qed.

Lemma prefix_append (a rest : string) : String.prefix a (a +:+ rest) = true.
Proof.
  induction a as [|c a IH].
  - rewrite append_nil_l. now destruct rest.
  - rewrite append_cons. cbn [String.prefix].
    destruct (ascii_dec c c); [assumption | congruence].
Qed.

Lemma find_from_ge (sub s : string) (i j : nat) :
  find_from sub s i = Some j -> (i <= j)%nat.
Proof.
  revert i. induction s as [|c s IH]; intros i; cbn [find_from].
  - destruct (String.prefix sub ""); [intros [= ->]; lia | discriminate].
  - destruct (String.prefix sub (String c s)); [intros [= ->]; lia |].
    intros H. apply IH in H. lia.
Qed.

Lemma replace_scan_skip (old new a rest : string) :
  replace_scan old new (a +:+ rest) (String.length a)
  = replace_scan old new rest 0.
Proof.
  induction a as [|c a IH].
  - rewrite append_nil_l. now destruct rest.
  - rewrite append_cons. exact IH.
Qed.

Lemma replace_scan_skip_all (old new s : string) (k : nat) :
  (String.length s <= k)%nat -> replace_scan old new s k = "".
Proof.
  revert k. induction s as [|c s IH]; intros k Hk; simpl in *.
  - reflexivity.
  - destruct k as [|k]; [lia|]. apply IH. lia.
Qed.

(** Where [old] does not occur, [replace] changes nothing. *)
Lemma replace_scan_absent (old new s : string) (i : nat) :
  find_from old s i = None -> replace_scan old new s 0 = s.
Proof.
  revert i. induction s as [|c s IH]; intros i; cbn [find_from replace_scan].
  - reflexivity.
  - destruct (String.prefix old (String c s)); [discriminate|].
    intros H. f_equal. eapply IH, H.
Qed.

(** A leading occurrence is replaced, and the scan resumes after it. *)
Lemma replace_scan_leading (c : ascii) (old' new rest : string) :
  replace_scan (String c old') new (String c old' +:+ rest) 0
  = new +:+ replace_scan (String c old') new rest 0.
Proof.
  pose proof (prefix_append (String c old') rest) as Hp.
  rewrite append_cons in *.
  cbn [replace_scan]. rewrite Hp.
  cbn [String.length]. rewrite Nat.sub_1_r. cbn [Nat.pred].
  now rewrite replace_scan_skip.
Qed.

(** When the first occurrence of [old] is the one that ends [s], only that
    one is replaced. *)
Lemma replace_scan_trailing (c : ascii) (old' new s : string) (i n : nat) :
  find_from (String c old') s i = Some (i + n)%nat ->
  (n + String.length (String c old') = String.length s)%nat ->
  replace_scan (String c old') new s 0 = take n s +:+ new.
Proof.
  set (old := String c old').
  revert i n. induction s as [|d s IH]; intros i n Hf Hlen.
  - simpl in Hlen. lia.
  - cbn [find_from replace_scan] in *.
    destruct (String.prefix old (String d s)) eqn:Hp.
    + injection Hf as Hf. assert (n = 0)%nat as -> by lia.
      cbn [take]. rewrite append_nil_l.
      rewrite replace_scan_skip_all; [apply append_empty_r|].
      simpl in *. lia.
    + pose proof (find_from_ge _ _ _ _ Hf) as Hge.
      destruct n as [|n]; [lia|].
      cbn [take]. rewrite append_cons.
      f_equal. apply (IH (S i) n).
      * rewrite Hf. f_equal. lia.
      * simpl in *. lia.
Qed.

End StringFacts.

(** ** C7: the download URL rewrite *)

(** C7 does not hold as stated: on a base URL that contains [/v1beta]
    before its trailing segment, the code rewrites every occurrence while the
    specified transform rewrites the trailing one only. *)
Lemma C7_replace_rewrites_every_occurrence :
  Utils.parse_video_uri "files/abc" "https://proxy/v1beta/gemini/v1beta"
    = "https://proxy/download/gemini/download/files/abc"
  /\ Utils.parse_video_uri_spec "files/abc" "https://proxy/v1beta/gemini/v1beta"
    = "https://proxy/v1beta/gemini/download/files/abc"
  /\ Utils.parse_video_uri "files/abc" "https://proxy/v1beta/gemini/v1beta"
     <> Utils.parse_video_uri_spec "files/abc" "https://proxy/v1beta/gemini/v1beta".
Proof. repeat split; try reflexivity. discriminate. Qed.

(** C7, amended: [parse_video_uri] equals the specified transform (strip the
    leading vendor host, rewrite the trailing [/v1beta] to [/download], join
    with a slash) whenever the vendor host does not occur again after the
    leading occurrence and the trailing [/v1beta] is the first occurrence of
    [/v1beta] in the base URL. *)
Theorem C7_parse_video_uri_refines_spec (video_uri base_url : string) :
  (PyStr.startswith video_uri Utils.GOOGLE_HOST = true ->
   PyStr.contains
     (PyStr.drop (String.length Utils.GOOGLE_HOST) video_uri)
     Utils.GOOGLE_HOST = false) ->
  (PyStr.endswith base_url "/v1beta" = true ->
   PyStr.find base_url "/v1beta"
   = Some (String.length base_url - String.length "/v1beta")%nat) ->
  Utils.parse_video_uri video_uri base_url
  = Utils.parse_video_uri_spec video_uri base_url.
Proof.
  intros Huri Hbase.
  unfold Utils.parse_video_uri, Utils.parse_video_uri_spec.
  f_equal; [|f_equal].
  - destruct (PyStr.endswith base_url "/v1beta") eqn:He; [|reflexivity].
    specialize (Hbase eq_refl).
    unfold PyStr.endswith in He. apply andb_prop in He as [Hlen _].
    apply Nat.leb_le in Hlen.
    unfold PyStr.replace, PyStr.find in *.
    apply (replace_scan_trailing _ _ _ _ 0); [exact Hbase | lia].
  - destruct (PyStr.startswith video_uri Utils.GOOGLE_HOST) eqn:Hs; [|reflexivity].
    specialize (Huri eq_refl).
    unfold PyStr.startswith in Hs.
    rewrite (prefix_split _ _ Hs) at 1.
    set (rest := PyStr.drop (String.length Utils.GOOGLE_HOST) video_uri) in *.
    unfold PyStr.replace, Utils.GOOGLE_HOST at 2.
    unfold Utils.GOOGLE_HOST at 1 2 3.
    rewrite replace_scan_leading.
    unfold PyStr.contains, PyStr.find in Huri.
    destruct (PyStr.find_from _ rest 0) eqn:Hf; [discriminate|].
    now rewrite (replace_scan_absent _ _ _ _ Hf).
Qed.

(** The docstring example, which satisfies both side conditions. *)
Lemma C7_parse_video_uri_refines_spec_witness :
  Utils.parse_video_uri
    "https://generativelanguage.googleapis.com/v1beta/files/abc123"
    "https://api.thucchien.ai/gemini/v1beta"
  = Utils.parse_video_uri_spec
      "https://generativelanguage.googleapis.com/v1beta/files/abc123"
      "https://api.thucchien.ai/gemini/v1beta".
Proof.
  apply C7_parse_video_uri_refines_spec; intros _; vm_compute; reflexivity.
Defined.

(** ** The poll loop: C4, C5, C6 *)

Section PollFacts.
Import Exceptions Effects Config Poller.

(** The loop sleeps through a tick that neither returns nor raises. *)
Lemma poll_loop_continue (mw : Z) (t : tick) (rest : list tick) (p : float) :
  Qle_bool (inject_Z mw) (elapsed t) = false ->
  poll_tick (get t) = Ok None ->
  poll_loop mw (t :: rest) p
  = (fst (poll_loop mw rest (next_interval p)),
     p :: snd (poll_loop mw rest (next_interval p))).
Proof.
  intros Ht Hk. cbn [poll_loop]. rewrite Ht, Hk.
  now destruct (poll_loop mw rest (next_interval p)).
Qed.

(** A tick that raises ends the run with that exception. *)
Lemma poll_loop_raise (mw : Z) (t : tick) (rest : list tick) (p : float) (e : exn) :
  Qle_bool (inject_Z mw) (elapsed t) = false ->
  poll_tick (get t) = Raise e ->
  poll_loop mw (t :: rest) p = (Raised e, []).
Proof. intros Ht Hk. cbn [poll_loop]. now rewrite Ht, Hk. Qed.

(** A non-2xx status on the GET is swallowed by the handler. *)
Lemma poll_tick_status_error (c : Z) (m : string) :
  poll_tick (GetStatus c m) = Ok None.
Proof. reflexivity. Qed.

(** A transport-level failure of the GET is not. *)
Lemma poll_tick_transport_error (m : string) :
  poll_tick (GetFails m) = Raise (RequestError m).
Proof. reflexivity. Qed.

(** The [i]-th sleep of a run that starts with interval [p]. *)
Lemma poll_loop_sleeps (mw : Z) (ticks : list tick) :
  forall (p : float) (i : nat) (x : float),
    snd (poll_loop mw ticks p) !! i = Some x ->
    x = Nat.iter i next_interval p.
Proof.
  induction ticks as [|t rest IH]; intros p i x; cbn [poll_loop].
  - destruct i; discriminate.
  - destruct (Qle_bool (inject_Z mw) (elapsed t)); [destruct i; discriminate|].
    destruct (poll_tick (get t)) as [[v|]|e]; try (destruct i; discriminate).
    destruct (poll_loop mw rest (next_interval p)) as [r slept] eqn:E.
    cbn [snd]. destruct i as [|i].
    + cbn. now intros [= <-].
    + rewrite Nat.iter_succ_r. intros H. apply IH. rewrite E. exact H.
Qed.

Lemma interval_iter (n : nat) :
  interval n = Nat.iter n next_interval INITIAL_POLL_INTERVAL.
Proof. induction n as [|n IH]; cbn; [reflexivity | now rewrite IH]. Qed.

(** Thirty seconds is a fixed point of the back-off step. *)
Lemma next_interval_cap : next_interval MAX_POLL_INTERVAL = MAX_POLL_INTERVAL.
Proof. reflexivity. Qed.

(** The cap is reached with the eighth sleep and kept. *)
Lemma interval_capped (k : nat) : interval (7 + k) = MAX_POLL_INTERVAL.
Proof.
  induction k as [|k IH].
  - reflexivity.
  - rewrite Nat.add_succ_r. cbn [interval]. rewrite IH. apply next_interval_cap.
Qed.

Lemma interval_monotone (n : nat) :
  PrimFloat.leb (interval n) (interval (S n)) = true
  /\ PrimFloat.leb (interval n) MAX_POLL_INTERVAL = true.
Proof.
  destruct (le_lt_dec 7 n) as [Hn|Hn].
  - replace n with (7 + (n - 7))%nat by lia.
    change (S (7 + (n - 7))) with (7 + S (n - 7))%nat.
    rewrite !interval_capped. split; reflexivity.
  - do 7 (destruct n as [|n]; [split; vm_compute; reflexivity|]). lia.
Qed.

End PollFacts.

(** C6: in every poll run the first sleep is [INITIAL_POLL_INTERVAL] (10 s);
    each later sleep is the previous one times [POLL_BACKOFF_MULTIPLIER]
    (1.2), capped by [min] at [MAX_POLL_INTERVAL] (30 s); no sleep is
    shorter than the one before it and none exceeds 30 s. The run never
    resets the interval: the [i]-th sleep is the [i]-th term of the back-off
    sequence, whatever the ticks were. *)
Theorem C6_poll_backoff_monotone (ticks : list Poller.tick) (max_wait_time : Z) :
  let slept := snd (Poller._poll_operation ticks max_wait_time) in
  (forall x, slept !! 0%nat = Some x -> x = 10%float)
  /\ (forall i x y, slept !! i = Some x -> slept !! S i = Some y ->
        y = Poller.py_min (PrimFloat.mul x Config.POLL_BACKOFF_MULTIPLIER) 30%float
        /\ PrimFloat.leb x y = true)
  /\ (forall i x, slept !! i = Some x ->
        x = Poller.interval i /\ PrimFloat.leb x 30%float = true).
Proof.
  cbv zeta. unfold Poller._poll_operation.
  assert (Hi : forall i x,
             snd (Poller.poll_loop max_wait_time ticks Config.INITIAL_POLL_INTERVAL) !! i
             = Some x -> x = Poller.interval i).
  { intros i x H. rewrite interval_iter. eapply poll_loop_sleeps, H. }
  split; [|split].
  - intros x H. now apply Hi in H.
  - intros i x y Hx Hy. apply Hi in Hx, Hy. subst x y. split.
    + reflexivity.
    + apply interval_monotone.
  - intros i x Hx. apply Hi in Hx. subst x. split; [reflexivity|].
    apply interval_monotone.
Qed.

(** A run of nine sleeps: the intervals as Python computes them. *)
Example C6_poll_backoff_values :
  snd (Poller._poll_operation
         (List.map (fun n => {| Poller.elapsed := inject_Z (Z.of_nat n);
                                Poller.get := Poller.GetStatus 503 "unavailable" |})
                   (seq 0 9))
         600)
  = [10; 12; 14.399999999999999; 17.279999999999998; 20.735999999999997;
     24.883199999999995; 29.859839999999991; 30; 30]%float.
Proof. vm_compute. reflexivity. Qed.

(** C4, the behaviour of the code at a transport failure: the first status
    GET cannot connect, the second would have found the job done; the run
    ends at the first tick with the transport exception, and no sleep and no
    second tick take place. *)
Theorem C4_transport_error_aborts_poll :
  Poller._poll_operation
    [ {| Poller.elapsed := 0; Poller.get := Poller.GetFails "connection refused" |};
      {| Poller.elapsed := 10; Poller.get := Poller.GetJson Demo.done_with_uri |} ]
    600
  = (Poller.Raised (Exceptions.RequestError "connection refused"), []).
Proof. vm_compute. reflexivity. Qed.

(** What the handler [except httpx.HTTPStatusError] does swallow: after a
    non-2xx status the loop sleeps and goes on with the next tick. *)
Lemma poll_status_error_retried (mw : Z) (t : Poller.tick)
    (rest : list Poller.tick) (p : float) (c : Z) (m : string) :
  Qle_bool (inject_Z mw) (Poller.elapsed t) = false ->
  Poller.get t = Poller.GetStatus c m ->
  Poller.poll_loop mw (t :: rest) p
  = (fst (Poller.poll_loop mw rest (Poller.next_interval p)),
     p :: snd (Poller.poll_loop mw rest (Poller.next_interval p))).
Proof.
  intros Ht Hg. apply poll_loop_continue; [assumption|].
  rewrite Hg. apply poll_tick_status_error.
Qed.

(** Every transport failure of a status GET ends the run, at any tick. *)
Lemma poll_transport_error_propagates (mw : Z) (t : Poller.tick)
    (rest : list Poller.tick) (p : float) (m : string) :
  Qle_bool (inject_Z mw) (Poller.elapsed t) = false ->
  Poller.get t = Poller.GetFails m ->
  Poller.poll_loop mw (t :: rest) p
  = (Poller.Raised (Exceptions.RequestError m), []).
Proof.
  intros Ht Hg. apply poll_loop_raise; [assumption|].
  rewrite Hg. apply poll_tick_transport_error.
Qed.

(** C5, the behaviour of the code on a done body with an empty samples list:
    the subscript [[0]] raises [IndexError], which the handler
    [except KeyError] does not catch; the poller ends with that
    [IndexError], not with an [APIError]. *)
Theorem C5_empty_samples_raise_IndexError :
  Poller._poll_operation
    [ {| Poller.elapsed := 0; Poller.get := Poller.GetJson Demo.done_without_samples |} ]
    600
  = (Poller.Raised
       (Exceptions.Builtin Exceptions.IndexError "list index out of range"), []).
Proof. vm_compute. reflexivity. Qed.

(** X4: a done body without an [error] key whose path misses a key raises
    an [APIError] that names the key and carries the whole body. *)
Lemma poll_missing_key_raises_APIError (d : dict) (msg : string) :
  Py.dict_lookup d "error" = None ->
  (exists v, Py.dict_lookup d "done" = Some v /\ Py.truthy v = true) ->
  Poller.extract_video_uri (JDict d)
  = Effects.Raise (Exceptions.Builtin Exceptions.KeyError msg) ->
  Poller.poll_tick (Poller.GetJson (JDict d))
  = Effects.Raise
      (Exceptions.VideoGenerationError Exceptions.APIError
         ("Could not extract video URI: " +:+ msg) [("response", JDict d)]).
Proof.
  intros He (v & Hd & Hv) Hx.
  unfold Poller.poll_tick, Poller.tick_body, Poller.py_in, Poller.py_get.
  cbn [Effects.rbind]. rewrite He. cbn [Effects.rbind]. rewrite Hd, Hv.
  unfold Poller.extract_or_api_error. rewrite Hx. cbn [Effects.rbind].
  unfold Exceptions.mkAPIError.
  assert (Py.truthy (JDict d) = true) as ->.
  { destruct d; [discriminate | reflexivity]. }
  reflexivity.
Qed.

(** A path that ends in a null [uri] is extracted as it is: the run returns
    [None] as the video URI. *)
Example poll_null_uri_is_returned :
  Poller.poll_tick
    (Poller.GetJson
       (JDict [("done", JBool true);
               ("response",
                JDict [("generateVideoResponse",
                        JDict [("generatedSamples",
                                JList [JDict [("video",
                                               JDict [("uri", JNull)])]])])])]))
  = Effects.Ok (Some JNull).
Proof. reflexivity. Qed.

(** The scenario of the specification: [{"done": true, "response": {}}]. *)
Example poll_response_without_path :
  Poller.poll_tick
    (Poller.GetJson (JDict [("done", JBool true); ("response", JDict [])]))
  = Effects.Raise
      (Exceptions.VideoGenerationError Exceptions.APIError
         "Could not extract video URI: 'generateVideoResponse'"
         [("response", JDict [("done", JBool true); ("response", JDict [])])]).
Proof. reflexivity. Qed.

(** ** The streaming download: C8, C9 *)

Section DownloadFacts.
Import Exceptions Effects Config Tenacity Transport Downloader.

Lemma append_assoc (a b c : string) : (a +:+ b) +:+ c = a +:+ (b +:+ c).
Proof.
  induction a as [|x a IH]; [reflexivity|].
  now rewrite !append_cons, IH.
Qed.

Lemma write_chunks_spec (p : string) (body : list stream_event) :
  forall (w : world) (c0 : string),
    files w !! p = Some c0 ->
    write_chunks p body w
    = (match stream_failure body with
       | None => Ok tt
       | Some e => Raise (exn_of_io e)
       end,
       with_files (fun fs => <[p := c0 +:+ delivered body]> fs) w).
Proof.
  induction body as [|[d|e] rest IH]; intros w c0 Hp;
    cbn [write_chunks stream_failure delivered].
  - unfold ret. f_equal. unfold with_files. rewrite append_empty_r.
    rewrite insert_id by assumption. now destruct w.
  - unfold bind. destruct (String.eqb_spec d "") as [->|Hd].
    + unfold ret. rewrite (IH w c0 Hp). now rewrite append_nil_l.
    + unfold write_chunk.
      erewrite IH.
      2:{ cbn. apply lookup_insert_eq. }
      f_equal. unfold with_files. cbn. rewrite Hp. cbn [default].
      now rewrite insert_insert_eq, append_assoc.
  - unfold raise. f_equal. unfold with_files. rewrite append_empty_r.
    rewrite insert_id by assumption. now destruct w.
Qed.


Lemma with_files_delete_absent (p : string) (w : world) :
  files w !! p = None -> with_files (delete p) w = w.
Proof.
  intros Hp. unfold with_files. rewrite (delete_id _ _ Hp). now destruct w.
Qed.

(** The second handler: whatever is at the target path is removed. *)
Lemma download_except_other (rd : dict -> string) (uri p : string)
    (e : exn) (w : world) :
  (forall c m, e <> HTTPStatusError c m) ->
  download_except rd uri p e w
  = (Raise (mkDownloadError ("Download failed: " +:+ exc_str rd e)
              (Some uri) None),
     with_files (delete p) w).
Proof.
  intros Hne.
  assert (H : (present <- path_exists p ;;
               (if present : bool then unlink p else ret tt) ;;;
               raise (mkDownloadError ("Download failed: " +:+ exc_str rd e)
                        (Some uri) None))%py w
              = (Raise (mkDownloadError ("Download failed: " +:+ exc_str rd e)
                          (Some uri) None) : result string,
                 with_files (delete p) w)).
  { unfold bind, path_exists, unlink, raise, ret.
    destruct (files w !! p) eqn:Hp; rewrite ?Hp.
    - reflexivity.
    - now rewrite with_files_delete_absent. }
  destruct e; try exact H. now destruct (Hne status_code message).
Qed.

Lemma exn_of_io_not_status (e : io_error) (c : Z) (m : string) :
  exn_of_io e <> HTTPStatusError c m.
Proof. now destruct e. Qed.


(** The checks after the stream is closed, on a file that is there. *)
Lemma verify_download_spec (uri p content : string) (w : world) :
  files w !! p = Some content ->
  (present <- path_exists p ;;
   if negb present then
     raise (mkDownloadError "Downloaded file does not exist" (Some uri) None)
   else
     file_size <- stat_size p ;;
     if (file_size =? 0)%nat then
       unlink p ;;;
       raise (mkDownloadError "Downloaded file is empty" (Some uri) None)
     else ret p)%py w
  = if String.eqb content ""
    then (Raise (mkDownloadError "Downloaded file is empty" (Some uri) None),
          with_files (delete p) w)
    else (Ok p, w).
Proof.
  intros Hp. unfold bind, path_exists, stat_size, unlink, raise, ret.
  rewrite Hp. cbn [negb]. rewrite Hp.
  destruct content as [|c content]; cbn; [now rewrite Hp | reflexivity].
Qed.

(** The stream block once the response is a 2xx with a readable header. *)
Lemma stream_body_spec (p : string) (oe : option string)
    (body : list stream_event) (w : world) :
  ((match oe with
    | Some m => raise (Builtin OSError m)
    | None => open_wb p
    end) ;;; write_chunks p body)%py w
  = match oe with
    | Some m => (Raise (Builtin OSError m), w)
    | None =>
        (match stream_failure body with
         | None => Ok tt
         | Some e => Raise (exn_of_io e)
         end,
         with_files (fun fs => <[p := delivered body]> fs) w)
    end.
Proof.
  unfold bind. destruct oe as [m|]; [reflexivity|].
  unfold open_wb.
  erewrite write_chunks_spec by (cbn; apply lookup_insert_eq).
  f_equal. unfold with_files. cbn.
  now rewrite insert_insert_eq, append_nil_l.
Qed.

Lemma download_body_spec (rd : dict -> string) (self : VeoVideoGenerator)
    (uri p : string) (w : world) :
  let url := Utils.parse_video_uri uri (base_url self) in
  let out := stream self (length (requests w)) url in
  exists r w',
    download_body rd self uri p w = (r, w')
    /\ requests w' = (requests w ++ [url])%list
    /\ sleeps w' = sleeps w
    /\ match out with
       | StreamStatus c _ =>
           r = Raise (mkDownloadError
                        ("Download failed with status " +:+ pretty c)
                        (Some uri) None)
           /\ files w' = files w
       | _ =>
           match complete_content out with
           | Some content =>
               r = Ok p /\ files w' = <[p := content]> (files w)
           | None =>
               (exists e, r = Raise (mkDownloadError
                                       ("Download failed: " +:+ exc_str rd e)
                                       (Some uri) None))
               /\ files w' = delete p (files w)
           end
       end.
Proof.
  intros url out.
  unfold download_body. fold url.
  unfold try_except, download_try, stream_to_file, send.
  unfold bind at 1 2 3. fold out.
  set (w1 := {| files := files w; clock := clock w; sleeps := sleeps w;
                requests := requests w ++ [url] |}).
  destruct out as [m|c m|h oe body] eqn:E.
  - unfold raise at 1. rewrite download_except_other by discriminate.
    eexists _, _. split; [reflexivity|].
    repeat split; eauto.
  - unfold raise at 1. cbn [download_except raise].
    eexists _, _. split; [reflexivity|]. repeat split.
  - destruct h as [|m|n].
    2:{ unfold raise at 1. cbv beta iota.
        rewrite download_except_other by discriminate.
        eexists _, _. split; [reflexivity|]. repeat split; eauto. }
    all: unfold ret at 1; cbv beta iota; rewrite stream_body_spec;
      cbn [complete_content];
      (destruct oe as [m|];
       [ rewrite download_except_other by discriminate;
         eexists _, _; split; [reflexivity|]; repeat split; eauto
       | destruct (stream_failure body) as [e|];
         [ rewrite download_except_other by (intros; apply exn_of_io_not_status);
           eexists _, _; split; [reflexivity|]; repeat split; eauto;
           cbn; apply delete_insert_eq
         | erewrite verify_download_spec by (cbn; apply lookup_insert_eq);
           destruct (String.eqb (delivered body) "");
           [ rewrite download_except_other by discriminate;
             eexists _, _; split; [reflexivity|]; repeat split; eauto;
             cbn; now rewrite delete_delete_eq, delete_insert_eq
           | eexists _, _; split; [reflexivity|]; repeat split ] ] ]).
Qed.

(** The decorator leaves alone a call that fails with anything but an
    [httpx.HTTPError]. *)
Lemma retry_loop_not_httpx {A} (call : M A) (w : world) (n k : nat) :
  (forall e w', call w = (Raise e, w') -> is_httpx_HTTPError e = false) ->
  retry_loop n k call w = call w.
Proof.
  intros H. destruct n; cbn [retry_loop];
    destruct (call w) as [[a|e] w'] eqn:E; try reflexivity;
    now rewrite (H e w' eq_refl).
Qed.

(** Whatever happens, the body of [_download_video] raises [DownloadError]. *)
Lemma download_body_raises_DownloadError (rd : dict -> string)
    (self : VeoVideoGenerator) (uri p : string) (w w' : world) (e : exn) :
  download_body rd self uri p w = (Raise e, w') ->
  exists m d, e = VideoGenerationError DownloadError m d.
Proof.
  intros H.
  destruct (download_body_spec rd self uri p w) as (r & w2 & Hr & _ & _ & Hc).
  rewrite H in Hr. injection Hr as <- <-.
  destruct (stream self _ _) as [m|c m|h oe body].
  2:{ destruct Hc as [[= ->] _]. unfold mkDownloadError. eauto. }
  all: destruct (complete_content _);
    [ destruct Hc as [[=] _]
    | destruct Hc as [(e' & [= ->]) _]; unfold mkDownloadError; eauto ].
Qed.

Lemma download_video_unfold (rd : dict -> string) (self : VeoVideoGenerator)
    (uri p : string) (w : world) :
  _download_video rd self uri p w = download_body rd self uri p w.
Proof.
  unfold _download_video, retry. apply retry_loop_not_httpx.
  intros e w' H.
  apply download_body_raises_DownloadError in H as (m & d & ->). reflexivity.
Qed.

Lemma complete_content_Some (out : stream_outcome) (content : string) :
  complete_content out = Some content ->
  exists h body,
    out = StreamOpens h None body /\ stream_failure body = None
    /\ delivered body <> "" /\ content = delivered body.
Proof.
  destruct out as [m|c m|h [m|] body]; cbn; try discriminate.
  - now destruct h.
  - destruct h; try discriminate;
      destruct (stream_failure body) eqn:Hs; try discriminate;
      destruct (String.eqb_spec (delivered body) ""); try discriminate;
      intros [= <-]; eexists _, _; repeat split; auto.
Qed.



(** The back-off of the decorator stays within [[1 s, 10 s]]. *)
Lemma wait_exponential_bounds (attempt_number : nat) :
  (RETRY_MIN_WAIT <= wait_exponential attempt_number <= RETRY_MAX_WAIT)%Z.
Proof. unfold wait_exponential, RETRY_MIN_WAIT, RETRY_MAX_WAIT. lia. Qed.


(** The three outcomes on concrete networks: a delivered body is on disk in
    full; an empty body and a stream that breaks after the first chunk both
    end in [DownloadError] and leave nothing at the target path. *)
Example download_outcomes :
  let run (self : VeoVideoGenerator) :=
    _download_video (Orchestrator.repr_dict Demo.runtime) self
      "files/v1" "/work/out.mp4" Demo.empty_world in
  (fst (run Demo.steady_generator) = Ok "/work/out.mp4"
   /\ files (snd (run Demo.steady_generator)) !! "/work/out.mp4" = Some "abcdef")
  /\ (fst (run Demo.empty_body_generator)
      = Raise (mkDownloadError
                 "Download failed: Downloaded file is empty | Details: {video_uri}"
                 (Some "files/v1") None)
      /\ files (snd (run Demo.empty_body_generator)) !! "/work/out.mp4" = None)
  /\ (fst (run Demo.broken_stream_generator)
      = Raise (mkDownloadError "Download failed: peer closed connection"
                 (Some "files/v1") None)
      /\ files (snd (run Demo.broken_stream_generator)) !! "/work/out.mp4" = None).
Proof. vm_compute. repeat split; reflexivity. Qed.


(** C9, the behaviour of the code at a transport failure: the first
    streaming GET cannot connect, the second would deliver the file. The
    call ends after one request and no sleep with [DownloadError], although
    a second attempt from the resulting world succeeds. *)
Theorem C9_transport_error_not_retried :
  let url := "https://api.thucchien.ai/gemini/download/files/v1" in
  let run1 := Downloader._download_video (Orchestrator.repr_dict Demo.runtime)
                Demo.flaky_generator "files/v1" "/work/out.mp4" Demo.empty_world in
  fst run1 = Raise (mkDownloadError "Download failed: connection reset"
                      (Some "files/v1") None)
  /\ requests (snd run1) = [url]
  /\ sleeps (snd run1) = []
  /\ files (snd run1) !! "/work/out.mp4" = None
  /\ fst (Downloader.download_body (Orchestrator.repr_dict Demo.runtime)
            Demo.flaky_generator "files/v1" "/work/out.mp4" (snd run1))
     = Ok "/work/out.mp4".
Proof. vm_compute. repeat split; reflexivity. Qed.

(** The decorator itself works where the body lets the transport exception
    through: [_initiate_generation] catches [HTTPStatusError] only, and on
    the same kind of network its POST is sent again after a one-second
    sleep. *)
Example initiate_generation_retries_transport_errors :
  let url := "https://api.thucchien.ai/gemini/v1beta/models/veo-3.0-generate-preview:predictLongRunning" in
  let run1 := Submitter._initiate_generation Demo.flaky_submitter
                "A cat playing" None Demo.empty_world in
  fst run1 = Ok (JStr "operations/op1")
  /\ requests (snd run1) = [url; url]
  /\ sleeps (snd run1) = [1%Z].
Proof. vm_compute. repeat split; reflexivity. Qed.

(** [stop_after_attempt(MAX_RETRY_ATTEMPTS)] with [reraise=True]: after three
    POSTs that time out and two sleeps, the transport exception itself
    leaves [_initiate_generation]. *)
Example initiate_generation_stops_after_three_attempts :
  let url := "https://api.thucchien.ai/gemini/v1beta/models/veo-3.0-generate-preview:predictLongRunning" in
  let run1 := Submitter._initiate_generation Demo.timing_out_generator
                "A cat playing" None Demo.empty_world in
  fst run1 = Raise (RequestError "")
  /\ requests (snd run1) = [url; url; url]
  /\ sleeps (snd run1) = [1%Z; 2%Z].
Proof. vm_compute. repeat split; reflexivity. Qed.

End DownloadFacts.

(** ** The single-job orchestrator: C1, C2 *)

Section OrchestratorFacts.
Import Exceptions Effects Config Models Orchestrator.

(** [generate_video_async] is its [try] block with the handler applied. *)
Lemma generate_video_async_unfold (rt : Runtime) (steps : Steps)
    (prompt : string) (out img : option string) (w : world) :
  generate_video_async rt steps prompt out img w
  = match generate_video_try rt steps (clock w) prompt out img w with
    | (Ok resp, w') => (Ok resp, w')
    | (Raise e, w') => (Ok (failure_response rt e (clock w' - clock w)%Q), w')
    end.
Proof.
  unfold generate_video_async, try_except, bind, time_time, ret.
  now destruct (generate_video_try _ _ _ _ _ _ _) as [[resp|e] w'].
Qed.

Lemma generate_video_async_returns (rt : Runtime) (steps : Steps)
    (prompt : string) (out img : option string) (w : world) :
  exists resp w', generate_video_async rt steps prompt out img w = (Ok resp, w').
Proof.
  rewrite generate_video_async_unfold.
  destruct (generate_video_try _ _ _ _ _ _ _) as [[resp|e] w']; eauto.
Qed.

Lemma failure_response_failed_with (rt : Runtime) (e : exn) (t : Q) :
  failed_with rt (failure_response rt e t) e.
Proof.
  unfold failed_with, failure_response. cbn. repeat split.
  intros d ->. reflexivity.
Qed.

(** The case analysis of C1 walks down the [try] block: a step that
    returned cannot have raised, and a step that raised is what the handler
    reports. *)
Ltac step_returned := split; [intros ? ? [=]|]; intros ? ? [= <- <-].
Ltac step_raised :=
  split; [intros ? ? [= <- <-]; apply failure_response_failed_with
         | intros ? ? [=]].

(** C1: for every prompt, output path and image path, and for every
    behaviour of the four awaited steps, [generate_video_async] returns a
    [VideoResponse] and raises nothing. Whenever the validation or a step
    raises [e], the response has [success = false], its [error] is [str(e)]
    and its [error_details] is the [details] payload of [e] when [e] has
    one (the empty dict otherwise). *)
Theorem C1_generate_video_async_never_raises (rt : Runtime) (steps : Steps)
    (prompt : string) (output_path image_path : option string) (w : world) :
  exists resp w',
    generate_video_async rt steps prompt output_path image_path w = (Ok resp, w')
    /\ (forall e w0,
          new_VideoRequest rt prompt output_path image_path w = (Raise e, w0) ->
          failed_with rt resp e)
    /\ (forall request w0,
          new_VideoRequest rt prompt output_path image_path w = (Ok request, w0) ->
          let upload :=
            match Models.image_path request with
            | Some p => _upload_image steps p
            | None => ret None
            end in
          let target :=
            match Models.output_path request with
            | Some p => p
            | None => generate_filename rt prompt None (clock w0)
            end in
          (forall e w1, upload w0 = (Raise e, w1) -> failed_with rt resp e)
          /\ (forall image_uri w1,
                upload w0 = (Ok image_uri, w1) ->
                (forall e w2,
                   _initiate_generation steps (Models.prompt request) image_uri w1
                   = (Raise e, w2) -> failed_with rt resp e)
                /\ (forall operation_name w2,
                      _initiate_generation steps (Models.prompt request) image_uri w1
                      = (Ok operation_name, w2) ->
                      (forall e w3,
                         _poll_operation steps operation_name w2 = (Raise e, w3) ->
                         failed_with rt resp e)
                      /\ (forall video_uri w3,
                            _poll_operation steps operation_name w2
                            = (Ok video_uri, w3) ->
                            forall e w4,
                              _download_video steps video_uri target w3
                              = (Raise e, w4) ->
                              failed_with rt resp e)))).
Proof.
  rewrite generate_video_async_unfold.
  unfold generate_video_try, bind, time_time.
  destruct (new_VideoRequest rt prompt output_path image_path w)
    as [[request|e0] w0] eqn:Hreq.
  2:{ eexists _, _. split; [reflexivity|]. step_raised. }
  set (upload := match Models.image_path request with
                 | Some p => _upload_image steps p
                 | None => ret None
                 end).
  set (target := match Models.output_path request with
                 | Some p => p
                 | None => generate_filename rt prompt None (clock w0)
                 end).
  destruct (upload w0) as [[image_uri|e1] w1] eqn:Hup.
  2:{ eexists _, _. split; [reflexivity|].
      step_returned. cbv zeta. fold upload. rewrite Hup. step_raised. }
  destruct (_initiate_generation steps (Models.prompt request) image_uri w1)
    as [[operation_name|e2] w2] eqn:Hinit.
  2:{ eexists _, _. split; [reflexivity|].
      step_returned. cbv zeta. fold upload. rewrite Hup.
      step_returned. rewrite Hinit. step_raised. }
  destruct (_poll_operation steps operation_name w2)
    as [[video_uri|e3] w3] eqn:Hpoll.
  2:{ eexists _, _. split; [reflexivity|].
      step_returned. cbv zeta. fold upload. rewrite Hup.
      step_returned. rewrite Hinit. step_returned. rewrite Hpoll. step_raised. }
  destruct (_download_video steps video_uri target w3)
    as [[video_path|e4] w4] eqn:Hdl.
  2:{ eexists _, _. split; [reflexivity|].
      step_returned. cbv zeta. fold upload target. rewrite Hup.
      step_returned. rewrite Hinit. step_returned. rewrite Hpoll.
      step_returned. rewrite Hdl.
      intros e w' [= <- <-]. apply failure_response_failed_with. }
  destruct (stat_size video_path w4) as [[size|e5] w5];
    (eexists _, _; split; [reflexivity|];
     step_returned; cbv zeta; fold upload target; rewrite Hup;
     step_returned; rewrite Hinit; step_returned; rewrite Hpoll;
     step_returned; rewrite Hdl; intros ? ? [=]).
Qed.

(** A refused submission, evaluated: the response reports the [APIError]. *)
Example generate_video_async_reports_api_failure :
  let resp :=
    fst (generate_video_async Demo.runtime Demo.steps "bad"
           (Some "/out/v.mp4") None Demo.empty_world) in
  option_map success (match resp with Ok r => Some r | Raise _ => None end)
  = Some false
  /\ option_map error (match resp with Ok r => Some r | Raise _ => None end)
     = Some (Some "API request failed | Details: {status_code}")
  /\ option_map error_details (match resp with Ok r => Some r | Raise _ => None end)
     = Some (Some [("status_code", JNum (inject_Z 400))]).
Proof. vm_compute. repeat split; reflexivity. Qed.

(** ** C2 *)

Lemma megabytes_positive (n : nat) :
  (0 < n)%nat -> (0 < inject_Z (Z.of_nat n) / inject_Z (1024 * 1024))%Q.
Proof.
  intros Hn. apply Qlt_shift_div_l.
  - reflexivity.
  - rewrite Qmult_0_l. change 0%Q with (inject_Z 0). rewrite <- Zlt_Qlt. lia.
Qed.

Lemma string_length_positive (s : string) : s <> "" -> (0 < String.length s)%nat.
Proof. destruct s; [congruence | cbn; lia]. Qed.

(** A download that returns leaves a non-empty file at the path returned. *)
Lemma download_video_returns_nonempty (rd : dict -> string)
    (self : Transport.VeoVideoGenerator) (uri p q : string) (w w' : world) :
  Downloader._download_video rd self uri p w = (Ok q, w') ->
  q = p /\ exists content, files w' !! p = Some content /\ content <> "".
Proof.
  rewrite download_video_unfold. intros H.
  destruct (download_body_spec rd self uri p w) as (r & w2 & Hr & _ & _ & Hc).
  rewrite H in Hr. injection Hr as <- <-.
  destruct (Transport.stream self _ _) as [m|c m|h oe body].
  2:{ now destruct Hc as [[=] _]. }
  all: destruct (Downloader.complete_content _) as [content|] eqn:Hcc;
    [ apply complete_content_Some in Hcc as (h' & body' & _ & _ & Hd & ->);
      destruct Hc as [[= ->] ->]; split; [reflexivity|];
      eexists; split; [apply lookup_insert_eq | exact Hd]
    | now destruct Hc as [(e & [=]) _] ].
Qed.

(** A response built by the [try] block is a success with a path and a
    size, and the file at that path is not empty. *)
Lemma generate_video_try_success (rt : Runtime)
    (self : Transport.VeoVideoGenerator)
    (upload : string -> M (option string))
    (initiate : string -> option string -> M string)
    (poll : string -> M string) (t0 : Q)
    (prompt : string) (out img : option string) (w w' : world)
    (resp : VideoResponse) :
  generate_video_try rt
    {| _upload_image := upload; _initiate_generation := initiate;
       _poll_operation := poll;
       _download_video := Downloader._download_video (repr_dict rt) self |}
    t0 prompt out img w = (Ok resp, w') ->
  success resp = true
  /\ exists p content,
      video_path resp = Some p
      /\ files w' !! p = Some content /\ content <> ""
      /\ file_size_mb resp
         = Some (inject_Z (Z.of_nat (String.length content))
                 / inject_Z (1024 * 1024))%Q.
Proof.
  unfold generate_video_try, bind, time_time. cbn [_upload_image
    _initiate_generation _poll_operation _download_video].
  destruct (new_VideoRequest _ _ _ _ _) as [[request|?] w0]; [|discriminate].
  destruct (match Models.image_path request with
            | Some p => upload p | None => ret None end w0)
    as [[image_uri|?] w1]; [|discriminate].
  destruct (initiate _ _ _) as [[operation_name|?] w2]; [|discriminate].
  destruct (poll _ _) as [[video_uri|?] w3]; [|discriminate].
  destruct (Downloader._download_video _ _ _ _ _) as [[video_path|?] w4] eqn:Hdl;
    [|discriminate].
  apply download_video_returns_nonempty in Hdl as (-> & content & Hc & Hne).
  unfold stat_size. rewrite Hc. unfold ret. intros [= <- <-]. cbn.
  split; [reflexivity|]. eauto 10.
Qed.

(** C2, amended: with the download step of the package, a response of
    [generate_video_async] with [success = true] has its [video_path] set,
    the file there is not empty and the recorded size is positive; a
    response with [success = false] has no [video_path], it is the response
    that the handler builds from the exception [e] that the [try] block
    raised, and its [error] is [str(e)] for that [e] -- not empty when [e]
    is one of the package's exceptions with a non-empty message, and empty
    exactly when [str(e)] is. *)
Theorem C2_response_invariant (rt : Runtime)
    (self : Transport.VeoVideoGenerator)
    (upload : string -> M (option string))
    (initiate : string -> option string -> M string)
    (poll : string -> M string)
    (prompt : string) (output_path image_path : option string) (w : world) :
  let steps :=
    {| _upload_image := upload; _initiate_generation := initiate;
       _poll_operation := poll;
       _download_video := Downloader._download_video (repr_dict rt) self |} in
  exists resp w',
    generate_video_async rt steps prompt output_path image_path w = (Ok resp, w')
    /\ (success resp = true ->
        exists p content size,
          video_path resp = Some p
          /\ files w' !! p = Some content /\ content <> ""
          /\ file_size_mb resp = Some size /\ (0 < size)%Q)
    /\ (success resp = false ->
        video_path resp = None
        /\ exists e w1,
            generate_video_try rt steps (clock w) prompt output_path
              image_path w = (Raise e, w1)
            /\ resp = failure_response rt e (clock w1 - clock w)%Q
            /\ error resp = Some (exc_str (repr_dict rt) e)
            /\ (error resp = Some "" <-> exc_str (repr_dict rt) e = "")
            /\ (forall cls message details,
                  e = VideoGenerationError cls message details ->
                  message <> "" -> error resp <> Some "")).
Proof.
  intros steps. rewrite generate_video_async_unfold.
  destruct (generate_video_try rt steps (clock w) prompt output_path image_path w)
    as [[resp|e] w'] eqn:Htry.
  - apply generate_video_try_success in Htry
      as (Hs & p & content & Hp & Hf & Hne & Hsz).
    exists resp, w'. split; [reflexivity|]. split.
    + intros _. exists p, content. eexists. repeat split; eauto.
      apply megabytes_positive, string_length_positive, Hne.
    + congruence.
  - eexists _, _. split; [reflexivity|]. cbn. split; [discriminate|].
    intros _. split; [reflexivity|]. exists e, w'.
    split; [reflexivity|]. split; [reflexivity|]. split; [reflexivity|].
    split; [split; congruence|].
    intros cls message details -> Hm. cbn.
    destruct message; [congruence|]. now destruct details.
Qed.

(** C2 does not hold as stated: when every POST of the submission times
    out, [_initiate_generation] re-raises the transport exception after its
    third attempt; the [str] of that exception is empty (httpx raises its
    timeouts that way), and the failed response carries the empty string as
    [error]. *)
Lemma C2_failure_with_empty_error :
  exists resp w',
    generate_video_async Demo.runtime Demo.silent_timeout_steps
      "A cat playing" None None Demo.empty_world = (Ok resp, w')
    /\ success resp = false
    /\ video_path resp = None
    /\ error resp = Some "".
Proof. eexists _, _. vm_compute. repeat split; reflexivity. Qed.

(** ** The batch: C3, C10 *)



Section Gather.

Variable tasks : list (M VideoResponse).

Hypothesis tasks_return :
  forall i task w, tasks !! i = Some task -> exists r w', task w = (Ok r, w').




End Gather.


Lemma collect_Some (slots : list (option VideoResponse))
    (results : list VideoResponse) :
  collect slots = Some results -> slots = List.map Some results.
Proof.
  revert results. induction slots as [|[r|] slots IH]; intros results; cbn [collect].
  - now intros [= <-].
  - destruct (collect slots) as [rs|]; [|discriminate].
    intros [= <-]. cbn. f_equal. now apply IH.
  - discriminate.
Qed.

(** The running sum of [generate_batch] counts the responses that satisfy
    [is_success]. *)
Lemma count_successful_filter (results : list VideoResponse) :
  count_successful results = Z.of_nat (length (List.filter is_success results)).
Proof.
  unfold count_successful.
  assert (H : forall acc,
             fold_left (fun acc r => if is_success r then (acc + 1)%Z else acc)
               results acc
             = (acc + Z.of_nat (length (List.filter is_success results)))%Z).
  { induction results as [|r results IH]; intros acc; cbn [fold_left List.filter].
    - cbn. lia.
    - rewrite IH. destruct (is_success r); cbn [length]; lia. }
  now rewrite H.
Qed.

Lemma filter_partition_length (results : list VideoResponse) :
  (length (List.filter is_success results)
   + length (List.filter (fun r => negb (is_success r)) results)
   = length results)%nat.
Proof.
  induction results as [|r results IH]; cbn [List.filter]; [reflexivity|].
  destruct (is_success r); cbn [negb length]; lia.
Qed.

(** What a completed batch returns, in terms of the collected results. *)
Lemma generate_batch_completes (rt : Runtime) (steps : Steps)
    (prompts : list string) (output_dir : option string) (limit : Z)
    (image_paths : option (list (option string))) (order : list nat)
    (w w' : world) (b : BatchResult) :
  generate_batch rt steps prompts output_dir limit image_paths order w
  = (Completes (Ok b), w') ->
  exists slots,
    gather (batch_tasks rt steps prompts output_dir image_paths) order
      (empty_slots (batch_tasks rt steps prompts output_dir image_paths)) w
    = (Ok slots, w')
    /\ slots = List.map Some (results b)
    /\ total b = Z.of_nat (length prompts)
    /\ successful b = count_successful (results b)
    /\ failed b = (Z.of_nat (length (results b)) - successful b)%Z.
Proof.
  unfold generate_batch.
  destruct (limit <? 0)%Z; [discriminate|].
  destruct ((limit =? 0)%Z && _); [discriminate|].
  destruct (gather _ _ _ _) as [[slots|e] w1]; [|discriminate].
  destruct (collect slots) as [results|] eqn:Hc; [|discriminate].
  intros [= <- <-]. exists slots. cbn. repeat split; auto.
  now apply collect_Some.
Qed.



(** The same batch, evaluated: the failed job sits at its own index and the
    other two have their files. *)
Example batch_with_one_failure :
  match fst (generate_batch Demo.runtime Demo.steps ["cat"; "bad"; "dog"]
               (Some "/out") 2 None [2; 0; 1]%nat Demo.empty_world) with
  | Completes (Ok b) =>
      List.map success (results b) = [true; false; true]
      /\ List.map video_path (results b)
         = [Some "/out/veo_video_0.mp4"; None; Some "/out/veo_video_2.mp4"]
      /\ (total b, successful b, failed b) = (3, 2, 1)%Z
  | _ => False
  end.
Proof. vm_compute. repeat split; reflexivity. Qed.

(** C10: [is_success] holds exactly when [success] is true and [video_path]
    is set; the count of [generate_batch], [get_successful_videos] and
    [get_failed_videos] all classify by it, so that a response with
    [success = true] and no [video_path] counts as failed; and every result
    is in exactly one of the two classes. *)
Theorem C10_is_success_classification :
  (forall r : VideoResponse,
      is_success r = true <-> success r = true /\ video_path r <> None)
  /\ (forall results : list VideoResponse,
        count_successful results
        = Z.of_nat (length (List.filter is_success results)))
  /\ (forall b : BatchResult,
        (length (get_successful_videos b) + length (get_failed_videos b)
         = length (results b))%nat)
  /\ (forall (b : BatchResult) (r : VideoResponse),
        In r (results b) ->
        (In r (get_successful_videos b) /\ ~ In r (get_failed_videos b)
         /\ is_success r = true)
        \/ (In r (get_failed_videos b) /\ ~ In r (get_successful_videos b)
            /\ is_success r = false))
  /\ (forall (b : BatchResult) (r : VideoResponse),
        In r (results b) -> success r = true -> video_path r = None ->
        In r (get_failed_videos b) /\ ~ In r (get_successful_videos b))
  /\ (forall rt steps prompts output_dir limit image_paths order w w' b,
        generate_batch rt steps prompts output_dir limit image_paths order w
        = (Completes (Ok b), w') ->
        successful b = Z.of_nat (length (get_successful_videos b))
        /\ failed b = Z.of_nat (length (get_failed_videos b))).
Proof.
  assert (Hcls : forall (b : BatchResult) (r : VideoResponse),
             In r (results b) ->
             (In r (get_successful_videos b) /\ ~ In r (get_failed_videos b)
              /\ is_success r = true)
             \/ (In r (get_failed_videos b) /\ ~ In r (get_successful_videos b)
                 /\ is_success r = false)).
  { intros b r Hin. unfold get_successful_videos, get_failed_videos.
    destruct (is_success r) eqn:Hs; [left|right]; repeat split.
    - apply filter_In. auto.
    - rewrite filter_In, Hs. intros [_ [=]].
    - apply filter_In. rewrite Hs. auto.
    - rewrite filter_In, Hs. intros [_ [=]]. }
  split; [|split; [|split; [|split; [|split]]]].
  - intros r. unfold is_success.
    destruct (success r), (video_path r); cbn; split;
      try discriminate; try (intros [? ?]; congruence); auto.
  - apply count_successful_filter.
  - intros b. apply filter_partition_length.
  - exact Hcls.
  - intros b r Hin Hs Hp.
    assert (His : is_success r = false).
    { unfold is_success. now rewrite Hs, Hp. }
    destruct (Hcls b r Hin) as [(_ & _ & H)|(H1 & H2 & _)]; [congruence | auto].
  - intros rt steps prompts output_dir limit image_paths order w w' b Hb.
    apply generate_batch_completes in Hb as (slots & _ & _ & _ & Hs & Hf).
    unfold get_successful_videos, get_failed_videos.
    pose proof (filter_partition_length (results b)) as Hlen.
    rewrite Hf, Hs, count_successful_filter. split; [reflexivity | lia].
Qed.

End OrchestratorFacts.

(** * Further properties *)

Local Open Scope list_scope.

(** ** The poll loop *)

Section PollRuns.
Import Exceptions Effects Config Poller.

(** Through a prefix of pending ticks the loop sleeps once per tick and
    multiplies the interval each time. *)
Lemma poll_loop_pending_prefix (mw : Z) (pending rest : list tick) :
  Forall (fun t => Qle_bool (inject_Z mw) (elapsed t) = false
                   /\ poll_tick (get t) = Ok None) pending ->
  forall p,
    poll_loop mw (pending ++ rest) p
    = (fst (poll_loop mw rest (Nat.iter (length pending) next_interval p)),
       (List.map (fun k => Nat.iter k next_interval p) (seq 0 (length pending))
        ++ snd (poll_loop mw rest (Nat.iter (length pending) next_interval p)))%list).
Proof.
  induction 1 as [|t pending [Ht Hk] _ IH]; intros p.
  - cbn. now destruct (poll_loop mw rest p).
  - change ((t :: pending) ++ rest) with (t :: (pending ++ rest)).
    rewrite (poll_loop_continue mw t _ p Ht Hk), IH. cbn [fst snd length].
    rewrite Nat.iter_succ_r. f_equal.
    cbn [seq List.map Nat.iter app]. f_equal. f_equal.
    rewrite <- seq_shift, List.map_map.
    apply List.map_ext. intros k. now rewrite Nat.iter_succ_r.
Qed.

End PollRuns.

(** X1: a poll run is decided by its first tick that is not pending. While
    the ticks neither reach the deadline nor end the try block (a body that
    is not done, or an HTTP error status), the loop sleeps once per tick; at
    the first tick that reaches the deadline, returns or raises, the run
    ends with that outcome, having slept exactly once per pending tick with
    the intervals of the back-off sequence, and no later tick is consulted. *)
Theorem poll_run_ends_at_first_terminal_tick (max_wait_time : Z)
    (pending : list Poller.tick) (t : Poller.tick) (later : list Poller.tick) :
  Forall (fun t => Qle_bool (inject_Z max_wait_time) (Poller.elapsed t) = false
                   /\ Poller.poll_tick (Poller.get t) = Effects.Ok None) pending ->
  (Qle_bool (inject_Z max_wait_time) (Poller.elapsed t) = true
   \/ Poller.poll_tick (Poller.get t) <> Effects.Ok None) ->
  Poller._poll_operation (pending ++ t :: later) max_wait_time
  = (if Qle_bool (inject_Z max_wait_time) (Poller.elapsed t) then
       Poller.Raised
         (Exceptions.mkTimeoutError
            ("Operation timed out after " +:+ pretty max_wait_time +:+ " seconds")
            (Some (Poller.elapsed t)))
     else
       match Poller.poll_tick (Poller.get t) with
       | Effects.Ok (Some video_uri) => Poller.Returned video_uri
       | Effects.Raise e => Poller.Raised e
       | Effects.Ok None => Poller.Pending
       end,
     List.map Poller.interval (seq 0 (length pending))).
Proof.
  intros Hp Ht. unfold Poller._poll_operation.
  rewrite (poll_loop_pending_prefix _ _ _ Hp).
  rewrite <- interval_iter.
  assert (Hm : List.map (fun k => Nat.iter k Poller.next_interval
                                   Config.INITIAL_POLL_INTERVAL)
                 (seq 0 (length pending))
               = List.map Poller.interval (seq 0 (length pending))).
  { apply List.map_ext. intros k. now rewrite interval_iter. }
  rewrite Hm. cbn [Poller.poll_loop].
  destruct (Qle_bool (inject_Z max_wait_time) (Poller.elapsed t)) eqn:Hd.
  - cbn [fst snd]. now rewrite app_nil_r.
  - destruct Ht as [Ht|Ht]; [discriminate|].
    destruct (Poller.poll_tick (Poller.get t)) as [[v|]|e]; cbn [fst snd];
      try (now rewrite app_nil_r). congruence.
Qed.

Lemma poll_run_ends_at_first_terminal_tick_witness :
  Poller._poll_operation Scenarios.three_ticks 600
  = (Poller.Returned (JStr "files/v1"), [10%float; 12%float]).
Proof.
  change Scenarios.three_ticks
    with (firstn 2 Scenarios.three_ticks
          ++ {| Poller.elapsed := 22;
                Poller.get := Poller.GetJson Demo.done_with_uri |}
          :: skipn 3 Scenarios.three_ticks).
  rewrite poll_run_ends_at_first_terminal_tick.
  - reflexivity.
  - repeat constructor.
  - right. discriminate.
Defined.

(** X2: a body with an [error] key always fails the job, even when it is
    done and carries a well-formed URI: the poller raises
    [APIError("Video generation failed")], whose details hold the error
    payload under [response] when that payload is truthy and are empty when
    it is null, empty or zero. *)
Theorem poll_error_key_wins (d : dict) (err : json) :
  Py.dict_lookup d "error" = Some err ->
  Poller.poll_tick (Poller.GetJson (JDict d))
  = Effects.Raise
      (Exceptions.VideoGenerationError Exceptions.APIError
         "Video generation failed"
         (if Py.truthy err then [("response", err)] else [])).
Proof.
  intros He. unfold Poller.poll_tick, Poller.tick_body, Poller.py_in, Poller.py_get.
  cbn [Effects.rbind]. rewrite He. cbn [Effects.rbind].
  unfold Exceptions.mkAPIError. now destruct (Py.truthy err).
Qed.

Lemma poll_error_key_wins_witness :
  Poller.poll_tick (Poller.GetJson (JDict Scenarios.done_with_error))
  = Effects.Raise
      (Exceptions.VideoGenerationError Exceptions.APIError
         "Video generation failed"
         [("response", JDict [("code", JNum (inject_Z 13))])]).
Proof.
  exact (poll_error_key_wins Scenarios.done_with_error
           (JDict [("code", JNum (inject_Z 13))]) eq_refl).
Defined.

(** X3: a done body without an [error] key whose nested path
    [response.generateVideoResponse.generatedSamples[0].video.uri] is
    present returns the value found there, whatever it is; only the first
    sample is read and further samples and keys are ignored. *)
Theorem poll_done_body_returns_uri (d r g s0 vd : dict) (more : list json)
    (done video_uri : json) :
  Py.dict_lookup d "error" = None ->
  Py.dict_lookup d "done" = Some done -> Py.truthy done = true ->
  Py.dict_lookup d "response" = Some (JDict r) ->
  Py.dict_lookup r "generateVideoResponse" = Some (JDict g) ->
  Py.dict_lookup g "generatedSamples" = Some (JList (JDict s0 :: more)) ->
  Py.dict_lookup s0 "video" = Some (JDict vd) ->
  Py.dict_lookup vd "uri" = Some video_uri ->
  Poller.poll_tick (Poller.GetJson (JDict d)) = Effects.Ok (Some video_uri).
Proof.
  intros He Hd Ht Hr Hg Hs Hv Hu.
  unfold Poller.poll_tick, Poller.tick_body, Poller.py_in, Poller.py_get.
  cbn [Effects.rbind]. rewrite He. cbn [Effects.rbind]. rewrite Hd, Ht.
  unfold Poller.extract_or_api_error, Poller.extract_video_uri, Poller.subscript.
  rewrite Hr. cbn [Effects.rbind]. rewrite Hg. cbn [Effects.rbind].
  rewrite Hs. cbn [Effects.rbind Poller.subscript0]. rewrite Hv.
  cbn [Effects.rbind]. now rewrite Hu.
Qed.

Lemma poll_done_body_returns_uri_witness :
  Poller.poll_tick (Poller.GetJson Demo.done_with_uri)
  = Effects.Ok (Some (JStr "files/v1")).
Proof.
  unfold Demo.done_with_uri.
  eapply poll_done_body_returns_uri; reflexivity.
Defined.

Lemma poll_missing_key_raises_APIError_witness :
  Poller.poll_tick
    (Poller.GetJson (JDict [("done", JBool true); ("response", JDict [])]))
  = Effects.Raise
      (Exceptions.VideoGenerationError Exceptions.APIError
         "Could not extract video URI: 'generateVideoResponse'"
         [("response", JDict [("done", JBool true); ("response", JDict [])])]).
Proof.
  apply (poll_missing_key_raises_APIError
           [("done", JBool true); ("response", JDict [])]
           "'generateVideoResponse'").
  - reflexivity.
  - exists (JBool true). split; reflexivity.
  - reflexivity.
Defined.

(** ** The submission *)

Section SubmissionFacts.
Import Exceptions Effects Config Tenacity Transport Submitter.

Lemma blank_prompt_test (prompt : string) :
  String.eqb prompt "" || String.eqb (PyStr.strip prompt) ""
  = String.eqb (PyStr.strip prompt) "".
Proof.
  destruct (String.eqb_spec prompt "") as [->|_]; reflexivity.
Qed.


End SubmissionFacts.

(** X5: a prompt that is empty or only whitespace is refused by
    [_initiate_generation] with the package's [ValidationError] for the
    field [prompt]; no request is sent, nothing is retried and the world is
    left as it was. *)
Theorem initiate_blank_prompt_sends_nothing (self : Transport.VeoVideoGenerator)
    (prompt : string) (image_uri : option string) (w : Effects.world) :
  PyStr.strip prompt = "" ->
  Submitter._initiate_generation self prompt image_uri w
  = (Effects.Raise
       (Exceptions.VideoGenerationError Exceptions.ValidationError
          "Prompt cannot be empty" [("field", JStr "prompt")]), w).
Proof.
  intros Hb. unfold Submitter._initiate_generation, Tenacity.retry.
  assert (H : Submitter.initiate_body self prompt image_uri w
              = (Effects.Raise
                   (Exceptions.VideoGenerationError Exceptions.ValidationError
                      "Prompt cannot be empty" [("field", JStr "prompt")]), w)).
  { unfold Submitter.initiate_body. rewrite blank_prompt_test, Hb. reflexivity. }
  rewrite retry_loop_not_httpx; [exact H|].
  intros e w' He. rewrite H in He. now injection He as <- <-.
Qed.

Lemma initiate_blank_prompt_sends_nothing_witness :
  Submitter._initiate_generation Demo.flaky_submitter "  " None Demo.empty_world
  = (Effects.Raise
       (Exceptions.VideoGenerationError Exceptions.ValidationError
          "Prompt cannot be empty" [("field", JStr "prompt")]), Demo.empty_world).
Proof. apply initiate_blank_prompt_sends_nothing. reflexivity. Defined.





(** ** The download *)

(** X9: [_download_video] touches no file but its target: whatever the
    network does, every other path holds after the call what it held
    before. *)
Theorem download_leaves_other_files (rd : dict -> string)
    (self : Transport.VeoVideoGenerator) (uri p q : string) (w : Effects.world) :
  q <> p ->
  Effects.files (snd (Downloader._download_video rd self uri p w)) !! q
  = Effects.files w !! q.
Proof.
  intros Hq. rewrite download_video_unfold.
  destruct (download_body_spec rd self uri p w) as (r & w' & Hr & _ & _ & Hc).
  rewrite Hr. cbn [snd].
  destruct (Transport.stream self _ _) as [m|c m|h oe body].
  2:{ destruct Hc as [_ ->]. reflexivity. }
  all: destruct (Downloader.complete_content _);
    destruct Hc as [_ ->];
    [ now apply lookup_insert_ne | now apply lookup_delete_ne ].
Qed.

Lemma download_leaves_other_files_witness :
  Effects.files
    (snd (Downloader._download_video (Orchestrator.repr_dict Demo.runtime)
            Demo.broken_stream_generator "files/v1" "/work/out.mp4"
            Scenarios.world_with_files)) !! "/work/keep.txt"
  = Some "notes".
Proof.
  rewrite download_leaves_other_files; [reflexivity | discriminate].
Defined.



(** ** The orchestrators *)

Section OrchestratorEdges.
Import Exceptions Effects Config Models Orchestrator.

Lemma new_VideoRequest_raises (rt : Runtime) (prompt : string)
    (out img : option string) (w : world) :
  (exists msg, check_prompt prompt = inr msg)
  \/ (exists msg, check_output_path rt out = inr msg)
  \/ (exists msg, check_image_path rt (files w) img = inr msg) ->
  exists msg,
    new_VideoRequest rt prompt out img w = (Raise (PydanticValidationError msg), w).
Proof.
  intros H. unfold new_VideoRequest.
  destruct (check_prompt prompt) as [p|mp]; [|eauto].
  destruct (check_output_path rt out) as [o|mo]; [|eauto].
  destruct (check_image_path rt (files w) img) as [i|mi]; [|eauto].
  destruct H as [(m & [=])|[(m & [=])|(m & [=])]].
Qed.

End OrchestratorEdges.

(** X11: a request that is refused before any directory is made runs no
    step. When no output path is given and the prompt is blank or longer
    than 2000 characters or the image file does not exist, or when the
    output path does not end in [.mp4] (its validator raises before it
    looks at the parent directory), [generate_video_async] returns a failed
    response that carries pydantic's validation error, whatever the four
    steps are, and leaves the world as it was: nothing is uploaded,
    submitted, polled or downloaded. *)
Theorem invalid_request_runs_no_step (rt : Orchestrator.Runtime)
    (steps : Orchestrator.Steps) (prompt : string)
    (output_path image_path : option string) (w : Effects.world) :
  (output_path = None
   /\ (PyStr.strip prompt = ""
       \/ (2000 < String.length prompt)%nat
       \/ (exists p, image_path = Some p /\ Effects.files w !! p = None)))
  \/ (exists p, output_path = Some p /\ Orchestrator.suffix_lower rt p <> ".mp4") ->
  exists msg,
    Orchestrator.generate_video_async rt steps prompt output_path image_path w
    = (Effects.Ok
         (Orchestrator.failure_response rt
            (Exceptions.PydanticValidationError msg)
            (Effects.clock w - Effects.clock w)%Q), w).
Proof.
  intros H.
  destruct (new_VideoRequest_raises rt prompt output_path image_path w)
    as (msg & Hm).
  { destruct H as [[_ [Hb|[Hl|(p & -> & Hp)]]]|(p & -> & Hp)].
    - left. unfold Orchestrator.check_prompt.
      destruct (String.length prompt <? 1)%nat; [eauto|].
      destruct (2000 <? String.length prompt)%nat; [eauto|].
      rewrite Hb. cbn. eauto.
    - left. unfold Orchestrator.check_prompt.
      destruct (String.length prompt <? 1)%nat; [eauto|].
      apply Nat.ltb_lt in Hl. rewrite Hl. eauto.
    - right. right. cbn. rewrite Hp. eauto.
    - right. left. cbn.
      destruct (String.eqb_spec (Orchestrator.suffix_lower rt p) ".mp4");
        [contradiction | eauto]. }
  exists msg. rewrite generate_video_async_unfold.
  unfold Orchestrator.generate_video_try, Effects.bind. now rewrite Hm.
Qed.

Lemma invalid_request_runs_no_step_witness :
  exists msg,
    Orchestrator.generate_video_async Demo.runtime Demo.steps "   "
      None (Some "/work/cat.jpg") Scenarios.world_with_files
    = (Effects.Ok
         (Orchestrator.failure_response Demo.runtime
            (Exceptions.PydanticValidationError msg) (0 - 0)%Q),
       Scenarios.world_with_files).
Proof.
  apply (invalid_request_runs_no_step Demo.runtime Demo.steps "   "
           None (Some "/work/cat.jpg") Scenarios.world_with_files).
  left. split; [reflexivity|]. left. reflexivity.
Defined.

(** X12: without an image path the upload step is never invoked and the
    submission receives no image URI: the outcome and the final world of
    [generate_video_async] are those of the run in which [_upload_image] is
    any other behaviour and [_initiate_generation] is handed [None] for its
    [image_uri], whatever it is asked for. *)
Theorem no_image_no_upload (rt : Orchestrator.Runtime)
    (upload upload' : string -> Effects.M (option string))
    (initiate : string -> option string -> Effects.M string)
    (poll : string -> Effects.M string)
    (download : string -> string -> Effects.M string)
    (prompt : string) (output_path : option string) (w : Effects.world) :
  Orchestrator.generate_video_async rt
    {| Orchestrator._upload_image := upload;
       Orchestrator._initiate_generation := initiate;
       Orchestrator._poll_operation := poll;
       Orchestrator._download_video := download |} prompt output_path None w
  = Orchestrator.generate_video_async rt
      {| Orchestrator._upload_image := upload';
         Orchestrator._initiate_generation :=
           fun prompt _ => initiate prompt None;
         Orchestrator._poll_operation := poll;
         Orchestrator._download_video := download |} prompt output_path None w.
Proof.
  rewrite !generate_video_async_unfold.
  unfold Orchestrator.generate_video_try, Effects.bind.
  cbn [Orchestrator._upload_image Orchestrator._initiate_generation
       Orchestrator._poll_operation Orchestrator._download_video].
  destruct (Orchestrator.new_VideoRequest rt prompt output_path None w)
    as [[request|e] w0] eqn:Hr; [|reflexivity].
  assert (Hi : Models.image_path request = None).
  { unfold Orchestrator.new_VideoRequest in Hr.
    destruct (Orchestrator.check_prompt prompt); [|discriminate].
    destruct (Orchestrator.check_output_path rt output_path); [|discriminate].
    cbn in Hr. now injection Hr as <- _. }
  rewrite Hi. reflexivity.
Qed.

(** ** Prompts: [str.strip], [VideoRequest] and [validate_prompt] *)

Section StripFacts.
Import PyStr Filenames.

Lemma rev_app_shift (s t u : string) :
  String.rev_app s (t +:+ u) = String.rev_app s t +:+ u.
Proof.
  revert t. induction s as [|c s IH]; intros t; cbn [String.rev_app].
  - reflexivity.
  - rewrite <- IH. now rewrite append_cons.
Qed.

Lemma rev_app_twice (s t u : string) :
  String.rev_app (String.rev_app s t) u = String.rev_app t (s +:+ u).
Proof.
  revert t u. induction s as [|c s IH]; intros t u; cbn [String.rev_app].
  - now rewrite append_nil_l.
  - rewrite IH. cbn [String.rev_app]. now rewrite append_cons.
Qed.

Lemma rev_involutive (s : string) : String.rev (String.rev s) = s.
Proof.
  unfold String.rev. rewrite rev_app_twice. cbn [String.rev_app].
  apply append_empty_r.
Qed.

Lemma length_rev_app (s t : string) :
  String.length (String.rev_app s t) = (String.length s + String.length t)%nat.
Proof.
  revert t. induction s as [|c s IH]; intros t; cbn [String.rev_app String.length].
  - reflexivity.
  - rewrite IH. cbn [String.length]. lia.
Qed.

Lemma length_rev (s : string) : String.length (String.rev s) = String.length s.
Proof. unfold String.rev. rewrite length_rev_app. cbn. lia. Qed.

Lemma first_char_rev_app (s t : string) :
  first_char (String.rev_app s t)
  = match last_char s with Some c => Some c | None => first_char t end.
Proof.
  revert t. induction s as [|c s IH]; intros t; cbn [String.rev_app last_char].
  - reflexivity.
  - rewrite IH. destruct s as [|d s]; [reflexivity|].
    destruct (last_char (String d s)) eqn:E; [reflexivity|].
    exfalso. clear -E. revert d E. induction s as [|e s IH]; intros d E.
    + discriminate.
    + cbn [last_char] in E. eapply IH, E.
Qed.

Lemma first_char_rev (s : string) : first_char (String.rev s) = last_char s.
Proof.
  unfold String.rev. rewrite first_char_rev_app. now destruct (last_char s).
Qed.

Lemma last_char_rev (s : string) : last_char (String.rev s) = first_char s.
Proof. now rewrite <- first_char_rev, rev_involutive. Qed.

Lemma length_lstrip (s : string) :
  (String.length (lstrip s) <= String.length s)%nat.
Proof.
  induction s as [|c s IH]; cbn [lstrip]; [lia|].
  destruct (isspace c); cbn [String.length]; lia.
Qed.

Lemma lstrip_first_char (s : string) (c : ascii) :
  first_char (lstrip s) = Some c -> isspace c = false.
Proof.
  induction s as [|d s IH]; cbn [lstrip]; [discriminate|].
  destruct (isspace d) eqn:E; [exact IH|]. cbn. now intros [= <-].
Qed.

(** What [lstrip] keeps is the end of the string. *)
Lemma lstrip_last_char (s : string) :
  lstrip s = "" \/ last_char (lstrip s) = last_char s.
Proof.
  induction s as [|d s IH]; cbn [lstrip]; [now left|].
  destruct (isspace d); [|now right].
  destruct IH as [IH|IH]; [now left|].
  destruct s; [now left|right]. now rewrite IH.
Qed.

Lemma lstrip_clean (s : string) :
  (forall c, first_char s = Some c -> isspace c = false) -> lstrip s = s.
Proof.
  destruct s as [|c s]; [reflexivity|]. intros H. cbn [lstrip].
  now rewrite (H c eq_refl).
Qed.

Lemma length_strip (s : string) :
  (String.length (strip s) <= String.length s)%nat.
Proof.
  unfold strip. rewrite length_rev.
  etransitivity; [apply length_lstrip|]. rewrite length_rev. apply length_lstrip.
Qed.

Lemma strip_first_char (s : string) (c : ascii) :
  first_char (strip s) = Some c -> isspace c = false.
Proof.
  unfold strip. rewrite first_char_rev.
  destruct (lstrip_last_char (String.rev (lstrip s))) as [E|E].
  - rewrite E. discriminate.
  - rewrite E, last_char_rev. apply lstrip_first_char.
Qed.

Lemma strip_last_char (s : string) (c : ascii) :
  last_char (strip s) = Some c -> isspace c = false.
Proof. unfold strip. rewrite last_char_rev. apply lstrip_first_char. Qed.

Lemma strip_clean (s : string) :
  (forall c, first_char s = Some c -> isspace c = false) ->
  (forall c, last_char s = Some c -> isspace c = false) ->
  strip s = s.
Proof.
  intros Hf Hl. unfold strip. rewrite (lstrip_clean s Hf).
  rewrite lstrip_clean; [apply rev_involutive|].
  intros c. rewrite first_char_rev. apply Hl.
Qed.

Lemma strip_idempotent (s : string) : strip (strip s) = strip s.
Proof. apply strip_clean; [apply strip_first_char | apply strip_last_char]. Qed.

End StripFacts.

(** X14: the prompt of a [VideoRequest]. When the [prompt] field validates,
    the stored prompt is the input stripped of surrounding whitespace; it
    has between 1 and 2000 characters, neither begins nor ends with a
    whitespace character, and validates again to itself. *)
Theorem request_prompt_is_normalised (v prompt : string) :
  Orchestrator.check_prompt v = inl prompt ->
  prompt = PyStr.strip v
  /\ (1 <= String.length prompt <= 2000)%nat
  /\ (forall c, Filenames.first_char prompt = Some c -> PyStr.isspace c = false)
  /\ (forall c, Filenames.last_char prompt = Some c -> PyStr.isspace c = false)
  /\ Orchestrator.check_prompt prompt = inl prompt.
Proof.
  unfold Orchestrator.check_prompt.
  destruct (String.length v <? 1)%nat eqn:H1; [discriminate|].
  destruct (2000 <? String.length v)%nat eqn:H2; [discriminate|].
  destruct (String.eqb_spec (PyStr.strip v) "") as [|Hne]; [discriminate|].
  intros [= <-].
  apply Nat.ltb_ge in H1, H2.
  pose proof (length_strip v) as Hl.
  assert (Hpos : (1 <= String.length (PyStr.strip v))%nat).
  { destruct (PyStr.strip v); [congruence | cbn; lia]. }
  split; [reflexivity|]. split; [lia|].
  split; [apply strip_first_char|]. split; [apply strip_last_char|].
  rewrite strip_idempotent.
  destruct (String.length (PyStr.strip v) <? 1)%nat eqn:H3;
    [apply Nat.ltb_lt in H3; lia|].
  destruct (2000 <? String.length (PyStr.strip v))%nat eqn:H4;
    [apply Nat.ltb_lt in H4; lia|].
  destruct (String.eqb_spec (PyStr.strip v) ""); [contradiction | reflexivity].
Qed.

Lemma request_prompt_is_normalised_witness :
  "A cat playing" = PyStr.strip "  A cat playing  "
  /\ Orchestrator.check_prompt "A cat playing" = inl "A cat playing".
Proof.
  destruct (request_prompt_is_normalised "  A cat playing  " "A cat playing"
              eq_refl) as (H1 & _ & _ & _ & H5).
  split; assumption.
Defined.

(** X15: [validate_prompt] accepts a prompt exactly when it has at most
    2000 characters and at least 3 once stripped; it then returns no
    message, and the [prompt] field of [VideoRequest] accepts the same
    prompt and stores it stripped. A rejection always comes with a
    message. The field is less strict: it accepts stripped prompts of one
    or two characters, which [validate_prompt] rejects. *)
Theorem validate_prompt_accepts (prompt : string) :
  (fst (Filenames.validate_prompt prompt) = true
   <-> (String.length prompt <= 2000)%nat
       /\ (3 <= String.length (PyStr.strip prompt))%nat)
  /\ (fst (Filenames.validate_prompt prompt) = true ->
      snd (Filenames.validate_prompt prompt) = None
      /\ Orchestrator.check_prompt prompt = inl (PyStr.strip prompt))
  /\ (fst (Filenames.validate_prompt prompt) = false ->
      snd (Filenames.validate_prompt prompt) <> None)
  /\ (Orchestrator.check_prompt "ab" = inl "ab"
      /\ fst (Filenames.validate_prompt "ab") = false).
Proof.
  assert (Hab : Orchestrator.check_prompt "ab" = inl "ab"
                /\ fst (Filenames.validate_prompt "ab") = false)
    by (split; reflexivity).
  pose proof (length_strip prompt) as Hl.
  unfold Filenames.validate_prompt, Orchestrator.check_prompt.
  rewrite blank_prompt_test.
  destruct (String.eqb_spec (PyStr.strip prompt) "") as [Hb|Hb].
  { rewrite Hb. cbn.
    split; [split; [discriminate | intros [_ H]; lia]|].
    split; [discriminate|]. split; [discriminate | exact Hab]. }
  destruct (2000 <? String.length prompt)%nat eqn:H2.
  { apply Nat.ltb_lt in H2. cbn.
    split; [split; [discriminate | intros [H _]; lia]|].
    split; [discriminate|]. split; [discriminate | exact Hab]. }
  apply Nat.ltb_ge in H2.
  destruct (String.length (PyStr.strip prompt) <? 3)%nat eqn:H3.
  { apply Nat.ltb_lt in H3. cbn.
    split; [split; [discriminate | intros [_ H]; lia]|].
    split; [discriminate|]. split; [discriminate | exact Hab]. }
  apply Nat.ltb_ge in H3. cbn [fst snd].
  destruct (String.length prompt <? 1)%nat eqn:H1;
    [apply Nat.ltb_lt in H1; lia|].
  split; [split; [intros _; split; lia | reflexivity]|].
  split; [intros _; split; reflexivity|].
  split; [discriminate | exact Hab].
Qed.

(** ** File names *)

Section FilenameFacts.
Import PyStr Filenames.

Lemma all_chars_app (p : ascii -> bool) (s t : string) :
  all_chars p (s +:+ t) = all_chars p s && all_chars p t.
Proof.
  induction s as [|c s IH]; [now rewrite append_nil_l|].
  rewrite append_cons. cbn [all_chars]. rewrite IH. now destruct (p c).
Qed.

Lemma all_chars_impl (p q : ascii -> bool) (s : string) :
  (forall c, p c = true -> q c = true) ->
  all_chars p s = true -> all_chars q s = true.
Proof.
  intros Hpq. induction s as [|c s IH]; [reflexivity|]. cbn [all_chars].
  intros [Hc Hs]%andb_prop. rewrite (Hpq c Hc), (IH Hs). reflexivity.
Qed.

Lemma single_underscores_prefix (s t : string) :
  single_underscores (s +:+ t) = true -> single_underscores s = true.
Proof.
  induction s as [|c s IH]; [reflexivity|].
  rewrite append_cons. cbn [single_underscores].
  intros [H1 H2]%andb_prop. rewrite (IH H2), andb_true_r.
  destruct s as [|d s]; [now rewrite andb_false_r|].
  rewrite append_cons in H1. exact H1.
Qed.

Lemma first_char_app (s t : string) :
  s <> "" -> first_char (s +:+ t) = first_char s.
Proof. destruct s; [congruence|]. now rewrite append_cons. Qed.

Lemma length_app (s t : string) :
  String.length (s +:+ t) = (String.length s + String.length t)%nat.
Proof.
  induction s as [|c s IH]; [now rewrite append_nil_l|].
  rewrite append_cons. cbn [String.length]. now rewrite IH.
Qed.

Lemma take_prefix (n : nat) (s : string) : exists t, s = take n s +:+ t.
Proof.
  revert n. induction s as [|c s IH]; intros [|n]; cbn [take].
  - now exists "".
  - now exists "".
  - exists (String c s). now rewrite append_nil_l.
  - destruct (IH n) as [t Ht]. exists t. now rewrite append_cons, <- Ht.
Qed.

Lemma length_take (n : nat) (s : string) :
  (String.length (take n s) <= n)%nat.
Proof.
  revert n. induction s as [|c s IH]; intros [|n]; cbn [take String.length];
    try lia. specialize (IH n). lia.
Qed.

Lemma rstrip_char_prefix (ch : ascii) (s : string) :
  exists t, s = rstrip_char ch s +:+ t.
Proof.
  induction s as [|c s IH]; cbn [rstrip_char]; [now exists ""|].
  destruct IH as [t Ht]. destruct (rstrip_char ch s) as [|d r].
  - destruct (Ascii.eqb c ch).
    + exists (String c s). now rewrite append_nil_l.
    + exists t. rewrite append_cons. now rewrite <- Ht.
  - exists t. rewrite append_cons. now rewrite <- Ht.
Qed.

Lemma length_rstrip_char (ch : ascii) (s : string) :
  (String.length (rstrip_char ch s) <= String.length s)%nat.
Proof.
  destruct (rstrip_char_prefix ch s) as [t Ht].
  rewrite Ht at 2. rewrite length_app. lia.
Qed.

Lemma rstrip_char_last (ch : ascii) (s : string) (c : ascii) :
  last_char (rstrip_char ch s) = Some c -> Ascii.eqb c ch = false.
Proof.
  induction s as [|d s IH]; cbn [rstrip_char]; [discriminate|].
  destruct (rstrip_char ch s) as [|e r].
  - destruct (Ascii.eqb d ch) eqn:E; [discriminate|].
    cbn. now intros [= <-].
  - exact IH.
Qed.

Lemma rstrip_char_clean (ch : ascii) (s : string) :
  (forall c, last_char s = Some c -> Ascii.eqb c ch = false) ->
  rstrip_char ch s = s.
Proof.
  induction s as [|d s IH]; [reflexivity|]. intros H. cbn [rstrip_char].
  destruct s as [|e s].
  - cbn [rstrip_char]. now rewrite (H d eq_refl).
  - rewrite IH by exact H. reflexivity.
Qed.

Lemma lstrip_char_first (ch : ascii) (s : string) (c : ascii) :
  first_char (lstrip_char ch s) = Some c -> Ascii.eqb c ch = false.
Proof.
  induction s as [|d s IH]; cbn [lstrip_char]; [discriminate|].
  destruct (Ascii.eqb d ch) eqn:E; [exact IH|]. cbn. now intros [= <-].
Qed.

Lemma lstrip_char_suffix (ch : ascii) (s : string) :
  exists t, s = t +:+ lstrip_char ch s.
Proof.
  induction s as [|d s IH]; cbn [lstrip_char]; [now exists ""|].
  destruct (Ascii.eqb d ch).
  - destruct IH as [t Ht]. exists (String d t). rewrite append_cons.
    now rewrite <- Ht.
  - exists "". now rewrite append_nil_l.
Qed.

Lemma single_underscores_suffix (s t : string) :
  single_underscores (s +:+ t) = true -> single_underscores t = true.
Proof.
  induction s as [|c s IH]; [now rewrite append_nil_l|].
  rewrite append_cons. cbn [single_underscores].
  intros [_ H]%andb_prop. exact (IH H).
Qed.

Lemma is_underscore_false (o : option ascii) :
  is_underscore o = false <-> (forall c, o = Some c -> Ascii.eqb c "_" = false).
Proof.
  destruct o as [c|]; cbn; split.
  - now intros H d [= <-].
  - intros H. now apply H.
  - discriminate.
  - reflexivity.
Qed.

Lemma name_char_not_space (c : ascii) : name_char c = true -> isspace c = false.
Proof.
  destruct c as [[] [] [] [] [] [] [] []]; vm_compute; congruence.
Qed.

Lemma underscore_name_char (c : ascii) :
  Ascii.eqb c "_" = true -> name_char c = true.
Proof. intros ->%Ascii.eqb_eq. reflexivity. Qed.

(** After the two substitutions only name characters are left, and no two
    underscores follow each other. *)
Lemma remove_special_chars (text : string) :
  all_chars (fun c => is_word c || isspace c || Ascii.eqb c "-")
            (remove_special text) = true.
Proof.
  induction text as [|c s IH]; [reflexivity|]. cbn [remove_special].
  destruct (is_word c || isspace c || Ascii.eqb c "-") eqn:E; [|exact IH].
  cbn [all_chars]. now rewrite E, IH.
Qed.

Lemma collapse_runs_chars (s : string) (in_run : bool) :
  all_chars (fun c => is_word c || isspace c || Ascii.eqb c "-") s = true ->
  all_chars name_char (collapse_runs s in_run) = true.
Proof.
  revert in_run. induction s as [|c s IH]; intros in_run; [reflexivity|].
  cbn [all_chars collapse_runs]. intros [Hc Hs]%andb_prop.
  destruct (isspace c || Ascii.eqb c "_") eqn:E.
  - destruct in_run; [now apply IH|]. cbn [all_chars]. now rewrite IH.
  - cbn [all_chars]. rewrite IH by exact Hs. rewrite andb_true_r.
    apply orb_false_elim in E as [E1 E2]. unfold name_char, is_word in *.
    rewrite E1, E2 in *. rewrite !orb_false_r in *. exact Hc.
Qed.

Lemma collapse_runs_single (s : string) (in_run : bool) :
  single_underscores (collapse_runs s in_run) = true
  /\ (in_run = true ->
      is_underscore (first_char (collapse_runs s in_run)) = false).
Proof.
  revert in_run. induction s as [|c s IH]; intros in_run.
  - split; reflexivity.
  - cbn [collapse_runs]. destruct (isspace c || Ascii.eqb c "_") eqn:E.
    + destruct in_run.
      * apply IH.
      * split; [|discriminate]. cbn [single_underscores].
        destruct (IH true) as [-> ->]; reflexivity.
    + apply orb_false_elim in E as [_ E]. split.
      * cbn [single_underscores]. rewrite E. cbn. apply IH.
      * intros _. cbn. exact E.
Qed.

Lemma collapse_runs_clean (s : string) :
  all_chars name_char s = true -> single_underscores s = true ->
  collapse_runs s false = s
  /\ (is_underscore (first_char s) = false -> collapse_runs s true = s).
Proof.
  induction s as [|c s IH]; [split; reflexivity|].
  cbn [all_chars single_underscores collapse_runs].
  intros [Hc Hs]%andb_prop [H1 H2]%andb_prop.
  destruct (IH Hs H2) as [IHf IHt].
  rewrite (name_char_not_space c Hc). cbn [orb].
  destruct (Ascii.eqb c "_") eqn:E.
  - cbn in H1. apply negb_true_iff in H1. split.
    + apply Ascii.eqb_eq in E as ->. now rewrite (IHt H1).
    + cbn. rewrite E. discriminate.
  - split; [now rewrite IHf | intros _; now rewrite IHf].
Qed.

Lemma remove_special_clean (s : string) :
  all_chars name_char s = true -> remove_special s = s.
Proof.
  induction s as [|c s IH]; [reflexivity|]. cbn [all_chars remove_special].
  intros [Hc Hs]%andb_prop. rewrite (IH Hs).
  assert (is_word c || isspace c || Ascii.eqb c "-" = true) as ->; [|reflexivity].
  unfold name_char, is_word in *.
  destruct (isalnum c), (Ascii.eqb c "_"), (Ascii.eqb c "-"); cbn in *;
    congruence || now rewrite ?orb_true_r.
Qed.

Lemma lstrip_char_clean (ch : ascii) (s : string) :
  (forall c, first_char s = Some c -> Ascii.eqb c ch = false) ->
  lstrip_char ch s = s.
Proof.
  destruct s as [|c s]; [reflexivity|]. intros H. cbn [lstrip_char].
  now rewrite (H c eq_refl).
Qed.

Lemma prefix_shape (p s : string) :
  (exists t, s = p +:+ t) ->
  all_chars name_char s = true -> single_underscores s = true ->
  is_underscore (first_char s) = false ->
  all_chars name_char p = true /\ single_underscores p = true
  /\ is_underscore (first_char p) = false.
Proof.
  intros [t ->] Ha Hs Hf. rewrite all_chars_app in Ha.
  apply andb_prop in Ha as [Ha _].
  split; [exact Ha|]. split; [eapply single_underscores_prefix, Hs|].
  destruct p; [reflexivity|]. now rewrite append_cons in Hf.
Qed.

Lemma stripped_name_shape (text : string) :
  all_chars name_char (stripped_name text) = true
  /\ single_underscores (stripped_name text) = true
  /\ is_underscore (first_char (stripped_name text)) = false
  /\ is_underscore (last_char (stripped_name text)) = false.
Proof.
  unfold stripped_name.
  set (s2 := collapse_runs (remove_special text) false).
  assert (A2 : all_chars name_char s2 = true)
    by apply collapse_runs_chars, remove_special_chars.
  assert (S2 : single_underscores s2 = true) by apply collapse_runs_single.
  destruct (lstrip_char_suffix "_" s2) as [t Ht].
  assert (A3 : all_chars name_char (lstrip_char "_" s2) = true).
  { rewrite Ht, all_chars_app in A2. now apply andb_prop in A2 as [_ A2]. }
  assert (S3 : single_underscores (lstrip_char "_" s2) = true).
  { rewrite Ht in S2. eapply single_underscores_suffix, S2. }
  assert (F3 : is_underscore (first_char (lstrip_char "_" s2)) = false).
  { apply is_underscore_false. apply lstrip_char_first. }
  destruct (prefix_shape _ _ (rstrip_char_prefix "_" (lstrip_char "_" s2))
              A3 S3 F3) as (A4 & S4 & F4).
  repeat split; try assumption.
  apply is_underscore_false. apply rstrip_char_last.
Qed.

Lemma slice_to_prefix (n : Z) (s : string) : exists t, s = slice_to n s +:+ t.
Proof. unfold slice_to. destruct (0 <=? n)%Z; apply take_prefix. Qed.

Lemma sanitize_filename_cases (text : string) (max_length : Z) :
  let r := sanitize_filename text max_length in
  r = "video"
  \/ r <> ""
     /\ (r = stripped_name text
           /\ (Z.of_nat (String.length r) <= max_length)%Z
         \/ r = rstrip_char "_" (slice_to max_length (stripped_name text))
           /\ (max_length < Z.of_nat (String.length (stripped_name text)))%Z).
Proof.
  cbv zeta. unfold sanitize_filename. fold (stripped_name text).
  destruct (Z.ltb_spec max_length (Z.of_nat (String.length (stripped_name text))))
    as [Hlt|Hge].
  - destruct (String.eqb_spec
                (rstrip_char "_" (slice_to max_length (stripped_name text))) "");
      [now left|right]. split; [assumption|]. right. now split.
  - destruct (String.eqb_spec (stripped_name text) ""); [now left|right].
    split; [assumption|]. left. now split.
Qed.

Lemma sanitize_filename_clean (text : string) (max_length : Z) :
  clean_name (sanitize_filename text max_length).
Proof.
  destruct (sanitize_filename_cases text max_length) as [->|[Hne H]].
  { repeat split; try reflexivity. discriminate. }
  destruct (stripped_name_shape text) as (A & S & F & L).
  destruct H as [[E _]|[E _]].
  - rewrite E in *. unfold clean_name. auto.
  - rewrite E in *.
    destruct (slice_to_prefix max_length (stripped_name text)) as [t Ht].
    destruct (prefix_shape (slice_to max_length (stripped_name text))
                (stripped_name text) (ex_intro _ t Ht) A S F) as (A1 & S1 & F1).
    destruct (prefix_shape _ _
                (rstrip_char_prefix "_" (slice_to max_length (stripped_name text)))
                A1 S1 F1) as (A2 & S2 & F2).
    unfold clean_name. repeat (split; [assumption|]).
    split; [|assumption].
    apply is_underscore_false. apply rstrip_char_last.
Qed.

Lemma sanitize_filename_length (text : string) (max_length : Z) :
  (0 <= max_length)%Z ->
  sanitize_filename text max_length = "video"
  \/ (Z.of_nat (String.length (sanitize_filename text max_length)) <= max_length)%Z.
Proof.
  intros Hn.
  destruct (sanitize_filename_cases text max_length) as [->|[_ H]]; [now left|].
  right. destruct H as [[_ H]|[-> _]]; [exact H|].
  pose proof (length_rstrip_char "_" (slice_to max_length (stripped_name text))).
  unfold slice_to in *. destruct (Z.leb_spec 0 max_length); [|lia].
  pose proof (length_take (Z.to_nat max_length) (stripped_name text)). lia.
Qed.

Lemma sanitize_filename_fixed (s : string) (max_length : Z) :
  clean_name s -> (Z.of_nat (String.length s) <= max_length)%Z ->
  sanitize_filename s max_length = s.
Proof.
  intros (Hne & A & F & L & S) Hlen. unfold sanitize_filename.
  rewrite (remove_special_clean s A).
  destruct (collapse_runs_clean s A S) as [-> _].
  rewrite lstrip_char_clean by (now apply is_underscore_false).
  rewrite rstrip_char_clean by (now apply is_underscore_false).
  destruct (Z.ltb_spec max_length (Z.of_nat (String.length s))); [lia|].
  destruct (String.eqb_spec s ""); [contradiction | reflexivity].
Qed.

End FilenameFacts.

(** X16: the shape of a sanitized name. Whatever the text and the maximum
    length, [sanitize_filename] returns a non-empty string of
    alphanumerics, underscores and hyphens, that neither begins nor ends
    with an underscore and has no two underscores in a row; in particular
    it holds no whitespace. *)
Theorem sanitize_filename_shape (text : string) (max_length : Z) :
  Filenames.clean_name (Filenames.sanitize_filename text max_length)
  /\ Filenames.all_chars (fun c => negb (PyStr.isspace c))
       (Filenames.sanitize_filename text max_length) = true.
Proof.
  pose proof (sanitize_filename_clean text max_length) as H.
  split; [exact H|]. destruct H as (_ & A & _).
  eapply all_chars_impl, A. intros c Hc.
  now rewrite (name_char_not_space c Hc).
Qed.

(** X17: the length of a sanitized name. For a maximum length that is not
    negative, the result has at most that many characters, unless nothing
    was left of the text and the result is the fallback name, which has
    five characters whatever the maximum is. *)
Theorem sanitize_filename_length_bound (text : string) (max_length : Z) :
  (0 <= max_length)%Z ->
  (Z.of_nat (String.length (Filenames.sanitize_filename text max_length))
   <= Z.max max_length 5)%Z
  /\ (Filenames.sanitize_filename text max_length <> "video" ->
      (Z.of_nat (String.length (Filenames.sanitize_filename text max_length))
       <= max_length)%Z).
Proof.
  intros Hn. destruct (sanitize_filename_length text max_length Hn) as [E|H].
  - rewrite E. split; [cbn; lia | congruence].
  - split; [lia | intros _; exact H].
Qed.

Lemma sanitize_filename_length_bound_witness :
  (Z.of_nat (String.length (Filenames.sanitize_filename "abcdefgh ij" 9))
   <= Z.max 9 5)%Z
  /\ (Z.of_nat (String.length (Filenames.sanitize_filename "!!!" 3))
      <= Z.max 3 5)%Z.
Proof.
  split.
  - exact (proj1 (sanitize_filename_length_bound "abcdefgh ij" 9 ltac:(lia))).
  - exact (proj1 (sanitize_filename_length_bound "!!!" 3 ltac:(lia))).
Defined.

(** X18: sanitizing is idempotent. A name of the sanitized shape that fits
    the maximum length is returned as it is, so with a maximum length of
    at least 5 (the default is 50, [generate_filename] uses 30) sanitizing
    a sanitized name changes nothing. Below 5 the fallback name is itself
    truncated by a second pass. *)
Theorem sanitize_filename_idempotent (text : string) (max_length : Z) :
  (5 <= max_length)%Z ->
  Filenames.sanitize_filename (Filenames.sanitize_filename text max_length)
    max_length
  = Filenames.sanitize_filename text max_length.
Proof.
  intros Hn. apply sanitize_filename_fixed.
  - apply sanitize_filename_clean.
  - destruct (sanitize_filename_length text max_length ltac:(lia)) as [E|H];
      [|exact H].
    rewrite E. cbn. lia.
Qed.

Lemma sanitize_filename_idempotent_witness :
  Filenames.sanitize_filename
    (Filenames.sanitize_filename "A cat playing! @home" 50) 50
  = Filenames.sanitize_filename "A cat playing! @home" 50
  /\ Filenames.sanitize_filename (Filenames.sanitize_filename "!!!" 3) 3 = "vid".
Proof.
  split.
  - apply (sanitize_filename_idempotent "A cat playing! @home" 50). lia.
  - reflexivity.
Defined.

Section GeneratedNames.
Import PyStr Filenames.

Lemma pretty_N_go_chars (x : N) (s : string) :
  all_chars printed s = true -> all_chars printed (pretty_N_go x s) = true.
Proof.
  revert s. induction (N.lt_wf_0 x) as [x _ IH]; intros s Hs.
  destruct (N.eq_dec x 0%N) as [->|Hx]; [exact Hs|].
  rewrite pretty_N_go_step by lia. apply IH.
  - apply N.div_lt; lia.
  - cbn [all_chars]. rewrite Hs, andb_true_r.
    unfold pretty_N_char. repeat case_match; reflexivity.
Qed.

Lemma pretty_Z_chars (z : Z) : all_chars printed (pretty z) = true.
Proof.
  assert (H : forall p : positive, all_chars printed (pretty p) = true).
  { intros p. unfold pretty, pretty_positive, pretty, pretty_N.
    case_decide; [reflexivity|]. now apply pretty_N_go_chars. }
  destruct z as [|p|p]; [reflexivity | apply H |].
  unfold pretty, pretty_Z. rewrite append_cons, append_nil_l.
  cbn [all_chars]. now rewrite H.
Qed.

Lemma pretty_Z_no_underscore (z : Z) :
  all_chars (fun c => negb (Ascii.eqb c "_")) (pretty z) = true.
Proof.
  eapply all_chars_impl, pretty_Z_chars.
  unfold printed. now intros c [_ ->]%andb_prop.
Qed.

Lemma split_last (a b x y : string) :
  all_chars (fun c => negb (Ascii.eqb c "_")) x = true ->
  all_chars (fun c => negb (Ascii.eqb c "_")) y = true ->
  a +:+ String "_" x = b +:+ String "_" y -> a = b /\ x = y.
Proof.
  intros Hx Hy. revert b. induction a as [|c a IH]; intros [|d b];
    rewrite ?append_nil_l, ?append_cons.
  - now intros [= ->].
  - intros [= <- ->]. rewrite all_chars_app in Hx.
    apply andb_prop in Hx as [_ Hx]. discriminate.
  - intros [= -> <-]. rewrite all_chars_app in Hy.
    apply andb_prop in Hy as [_ Hy]. discriminate.
  - intros [= -> H]. destruct (IH _ H) as [-> ->]. now split.
Qed.

Lemma generate_filename_indexed (prompt : string) (i : Z) (timestamp : bool)
    (now : Q) :
  generate_filename prompt (Some i) timestamp now
  = (("veo_" +:+ sanitize_filename prompt 30) +:+ String "_" (pretty i))
    +:+ (if timestamp then String "_" (pretty (py_int now) +:+ ".mp4")
         else ".mp4").
Proof.
  unfold generate_filename. destruct timestamp; cbn [app String.concat];
    repeat first [rewrite append_assoc | rewrite append_cons
                 | rewrite append_nil_l];
    reflexivity.
Qed.

Lemma append_cancel_r (a b t : string) : a +:+ t = b +:+ t -> a = b.
Proof.
  revert b. induction a as [|c a IH]; intros [|d b];
    rewrite ?append_nil_l, ?append_cons; intros H.
  - reflexivity.
  - apply (f_equal String.length) in H. cbn [String.length] in H.
    rewrite length_app in H. lia.
  - apply (f_equal String.length) in H. cbn [String.length] in H.
    rewrite length_app in H. lia.
  - injection H as -> H. now rewrite (IH _ H).
Qed.

Lemma append_cancel_l (t a b : string) : t +:+ a = t +:+ b -> a = b.
Proof.
  induction t as [|c t IH]; [now rewrite !append_nil_l|].
  rewrite !append_cons. intros [= H]. exact (IH H).
Qed.

Lemma printed_filename_char (c : ascii) :
  printed c = true -> filename_char c = true.
Proof.
  unfold printed, filename_char. intros [-> _]%andb_prop. reflexivity.
Qed.

Lemma name_filename_char (c : ascii) :
  name_char c = true -> filename_char c = true.
Proof. unfold filename_char. now intros ->. Qed.

Lemma generate_filename_parts (prompt : string) (index : option Z)
    (timestamp : bool) (now : Q) :
  exists mid,
    generate_filename prompt index timestamp now
    = "veo_" +:+ (sanitize_filename prompt 30 +:+ (mid +:+ ".mp4"))
    /\ all_chars filename_char mid = true.
Proof.
  assert (P : forall z : Z, all_chars filename_char (pretty z) = true).
  { intros z. eapply all_chars_impl, pretty_Z_chars.
    apply printed_filename_char. }
  unfold generate_filename.
  destruct index as [i|], timestamp; cbn [app String.concat].
  - exists (String "_" (pretty i +:+ String "_" (pretty (py_int now)))). split.
    + repeat first [rewrite append_assoc | rewrite append_cons
                   | rewrite append_nil_l]; reflexivity.
    + cbn [all_chars]. rewrite all_chars_app. cbn [all_chars].
      now rewrite !P.
  - exists (String "_" (pretty i)). split.
    + repeat first [rewrite append_assoc | rewrite append_cons
                   | rewrite append_nil_l]; reflexivity.
    + cbn [all_chars]. now rewrite P.
  - exists (String "_" (pretty (py_int now))). split.
    + repeat first [rewrite append_assoc | rewrite append_cons
                   | rewrite append_nil_l]; reflexivity.
    + cbn [all_chars]. now rewrite P.
  - exists "". split; [|reflexivity].
    repeat first [rewrite append_assoc | rewrite append_cons
                 | rewrite append_nil_l]; reflexivity.
Qed.

Lemma drop_app (a p : string) : drop (String.length a) (a +:+ p) = p.
Proof.
  induction a as [|c a IH]; [now rewrite append_nil_l|].
  rewrite append_cons. exact IH.
Qed.

Lemma endswith_app (a p : string) : endswith (a +:+ p) p = true.
Proof.
  unfold endswith. rewrite length_app.
  replace (String.length a + String.length p - String.length p)%nat
    with (String.length a) by lia.
  rewrite drop_app, String.eqb_refl, andb_true_r. apply Nat.leb_le. lia.
Qed.

Lemma find_char_absent (q : ascii -> bool) (ch : ascii) (s : string) (i : nat) :
  q ch = false -> all_chars q s = true ->
  find_from (String ch "") s i = None.
Proof.
  intros Hq. revert i. induction s as [|c s IH]; intros i; [reflexivity|].
  cbn [all_chars find_from String.prefix]. intros [Hc Hs]%andb_prop.
  destruct (ascii_dec ch c) as [->|_]; [congruence|].
  now apply IH.
Qed.

End GeneratedNames.

(** X19: the shape of a generated file name. It begins with [veo_], ends
    with [.mp4], and is made of alphanumerics, underscores, hyphens and
    dots only: whatever the prompt holds, the name has no path separator
    and stays one component of the path it is joined to. *)
Theorem generate_filename_shape (prompt : string) (index : option Z)
    (timestamp : bool) (now : Q) :
  let name := Filenames.generate_filename prompt index timestamp now in
  PyStr.startswith name "veo_" = true
  /\ PyStr.endswith name ".mp4" = true
  /\ Filenames.all_chars Filenames.filename_char name = true
  /\ PyStr.contains name "/" = false.
Proof.
  cbv zeta.
  destruct (generate_filename_parts prompt index timestamp now) as (mid & E & M).
  rewrite E. split.
  { apply prefix_append. }
  split.
  { rewrite <- !append_assoc. apply endswith_app. }
  assert (A : Filenames.all_chars Filenames.filename_char
                ("veo_" +:+ (Filenames.sanitize_filename prompt 30
                             +:+ (mid +:+ ".mp4"))) = true).
  { rewrite !all_chars_app, M.
    destruct (sanitize_filename_clean prompt 30) as (_ & C & _).
    rewrite (all_chars_impl _ _ _ name_filename_char C). reflexivity. }
  split; [exact A|].
  unfold PyStr.contains, PyStr.find.
  now rewrite (find_char_absent Filenames.filename_char "/" _ 0 eq_refl A).
Qed.

Lemma generate_filename_shape_example :
  Filenames.generate_filename "A cat playing" (Some 1%Z) true 1234567890
  = "veo_A_cat_playing_1_1234567890.mp4".
Proof. reflexivity. Qed.

(** X20: the files of a batch have different names. Two names generated
    with different indices differ, whatever the two prompts and the two
    readings of the clock, and so do the paths they give under one output
    directory: no job of a batch writes over the file of another. *)
Theorem generate_filename_index_injective (prompt1 prompt2 : string)
    (i j : Z) (timestamp : bool) (now1 now2 : Q) (dir : string) :
  i <> j ->
  Filenames.generate_filename prompt1 (Some i) timestamp now1
  <> Filenames.generate_filename prompt2 (Some j) timestamp now2
  /\ Orchestrator.path_join dir
       (Filenames.generate_filename prompt1 (Some i) timestamp now1)
     <> Orchestrator.path_join dir
          (Filenames.generate_filename prompt2 (Some j) timestamp now2).
Proof.
  intros Hij.
  assert (N : Filenames.generate_filename prompt1 (Some i) timestamp now1
              <> Filenames.generate_filename prompt2 (Some j) timestamp now2).
  { rewrite !generate_filename_indexed. intros E. apply Hij.
    assert (E' : ("veo_" +:+ Filenames.sanitize_filename prompt1 30)
                 +:+ String "_" (pretty i)
                 = ("veo_" +:+ Filenames.sanitize_filename prompt2 30)
                   +:+ String "_" (pretty j)).
    { destruct timestamp.
      - apply split_last in E as [E _]; [exact E|..];
          rewrite all_chars_app; rewrite pretty_Z_no_underscore; reflexivity.
      - eapply append_cancel_r, E. }
    apply split_last in E' as [_ E']; [|apply pretty_Z_no_underscore..].
    now apply (inj pretty) in E'. }
  split; [exact N|]. unfold Orchestrator.path_join. intros E. apply N.
  apply append_cancel_l in E. rewrite !append_cons, !append_nil_l in E.
  now injection E.
Qed.

Lemma generate_filename_index_injective_witness :
  Filenames.generate_filename "a 1" (Some 2%Z) true 5
  <> Filenames.generate_filename "a" (Some 1%Z) true 2.
Proof.
  refine (proj1 (generate_filename_index_injective "a 1" "a" 2 1 true 5 2 "out" _)).
  lia.
Defined.

(** ** The image upload *)

Section UploadFacts.
Import Exceptions Effects Config Tenacity Transport Uploader.

Variable rd : dict -> string.




End UploadFacts.






(** ** The environment and the synchronous wrapper *)

Section EnvironmentFacts.
Import Exceptions Effects Environment.

Lemma py_or_cases {B} (a : option string) (b : B) (k : string -> B) :
  (exists s, a = Some s /\ s <> "" /\ py_or a b k = k s)
  \/ ((a = None \/ a = Some "") /\ py_or a b k = b).
Proof.
  destruct a as [s|]; [|right; split; [now left | reflexivity]].
  unfold py_or. destruct (String.eqb_spec s "") as [->|Hs].
  - right. split; [now right | reflexivity].
  - left. exists s. auto.
Qed.

Lemma get_api_key_cases (env : environ) :
  match get_api_key env with
  | Ok k =>
      k <> ""
      /\ (env !! API_KEY_ENV_VAR = Some k
          \/ (env !! API_KEY_ENV_VAR = None \/ env !! API_KEY_ENV_VAR = Some "")
             /\ env !! LITELLM_API_KEY_ENV = Some k)
  | Raise e =>
      e = Builtin ValueError
            "API key not found. Set THUCCHIEN_API_KEY or LITELLM_API_KEY environment variable."
      /\ (env !! API_KEY_ENV_VAR = None \/ env !! API_KEY_ENV_VAR = Some "")
      /\ (env !! LITELLM_API_KEY_ENV = None
          \/ env !! LITELLM_API_KEY_ENV = Some "")
  end.
Proof.
  unfold get_api_key.
  destruct (py_or_cases (env !! API_KEY_ENV_VAR) (env !! LITELLM_API_KEY_ENV) Some)
    as [(s & E & Hs & ->)|[E ->]].
  - unfold py_or at 1. destruct (String.eqb_spec s ""); [contradiction|].
    split; [assumption | now left].
  - destruct (env !! LITELLM_API_KEY_ENV) as [s|] eqn:E2.
    + unfold py_or. destruct (String.eqb_spec s "") as [->|Hs].
      * repeat split; auto.
      * split; [assumption | right; now split].
    + repeat split; auto.
Qed.

End EnvironmentFacts.

(** X24: the API key from the environment. [get_api_key] never returns an
    empty key: it returns the value of [THUCCHIEN_API_KEY] when that is set
    and not empty, else the value of [LITELLM_API_KEY] when that is set and
    not empty, and raises [ValueError] exactly when both are unset or
    empty. *)
Theorem get_api_key_never_empty (env : Environment.environ) :
  match Environment.get_api_key env with
  | Effects.Ok k =>
      k <> ""
      /\ (env !! Environment.API_KEY_ENV_VAR = Some k
          \/ (env !! Environment.API_KEY_ENV_VAR = None
              \/ env !! Environment.API_KEY_ENV_VAR = Some "")
             /\ env !! Environment.LITELLM_API_KEY_ENV = Some k)
  | Effects.Raise e =>
      e = Exceptions.Builtin Exceptions.ValueError
            "API key not found. Set THUCCHIEN_API_KEY or LITELLM_API_KEY environment variable."
      /\ (env !! Environment.API_KEY_ENV_VAR = None
          \/ env !! Environment.API_KEY_ENV_VAR = Some "")
      /\ (env !! Environment.LITELLM_API_KEY_ENV = None
          \/ env !! Environment.LITELLM_API_KEY_ENV = Some "")
  end.
Proof. apply get_api_key_cases. Qed.

Example get_api_key_skips_empty_variable :
  Environment.get_api_key Scenarios.env_with_empty_key = Effects.Ok "sk-2"
  /\ Environment.get_api_key ∅
     = Effects.Raise
         (Exceptions.Builtin Exceptions.ValueError
            "API key not found. Set THUCCHIEN_API_KEY or LITELLM_API_KEY environment variable.").
Proof. split; reflexivity. Qed.

(** X25: the constructor. [__init__] raises only the [ValueError] of
    [get_api_key], and only when the [api_key] argument is [None] or
    empty; a generator it builds has a non-empty key, sends it in the
    [x-goog-api-key] header, and takes an argument that is given and not
    empty as it is, without looking at the environment. *)
Theorem init_settings (env : Environment.environ)
    (base_url api_key : option string) :
  match Environment.__init__ env base_url api_key with
  | Effects.Ok gen =>
      Environment.api_key gen <> ""
      /\ Environment.headers gen
         = [("x-goog-api-key", Environment.api_key gen);
            ("Content-Type", "application/json")]
      /\ (forall k, api_key = Some k -> k <> "" -> Environment.api_key gen = k)
      /\ (forall b, base_url = Some b -> b <> "" -> Environment.base_url gen = b)
      /\ ((base_url = None \/ base_url = Some "") ->
          Environment.base_url gen = Environment.get_base_url env)
  | Effects.Raise e =>
      (api_key = None \/ api_key = Some "")
      /\ Environment.get_api_key env = Effects.Raise e
  end.
Proof.
  unfold Environment.__init__.
  assert (B : (forall b, base_url = Some b -> b <> "" ->
                 Environment.py_or base_url (Environment.get_base_url env) id = b)
              /\ ((base_url = None \/ base_url = Some "") ->
                  Environment.py_or base_url (Environment.get_base_url env) id
                  = Environment.get_base_url env)).
  { destruct (py_or_cases base_url (Environment.get_base_url env) id)
      as [(s & -> & Hs & ->)|[[->| ->] ->]]; split;
      try (intros b [= <-]); try reflexivity; try congruence;
      intros [|]; congruence. }
  destruct (py_or_cases api_key (Environment.get_api_key env) Effects.Ok)
    as [(s & -> & Hs & ->)|[E ->]]; cbn [Effects.rbind].
  - repeat split; try (apply B); auto. now intros k [= <-].
  - pose proof (get_api_key_cases env) as G.
    destruct (Environment.get_api_key env) as [k|e]; cbn [Effects.rbind].
    + destruct G as [G _]. repeat split; try (apply B); auto.
      intros k' -> Hk. destruct E as [E|E]; congruence.
    + split; [exact E | reflexivity].
Qed.

(** X26: the synchronous wrapper. Called from a thread that runs an event
    loop, [generate_video] raises the [RuntimeError] of [asyncio.run] and
    nothing is done, not even the constructor. Otherwise it raises only
    when the constructor does, before any step; once a generator is built
    it always returns: the path of the response when the response is a
    success, and the empty string for every failure of the run. *)
Theorem generate_video_outcome (loop_running : bool)
    (env : Environment.environ) (rt : Orchestrator.Runtime)
    (steps_of : Environment.Settings -> Orchestrator.Steps)
    (prompt model : string) (output_path base_url api_key : option string)
    (w : Effects.world) :
  if loop_running then
    Wrapper.generate_video true env rt steps_of prompt model output_path
      base_url api_key w
    = (Effects.Raise
         (Exceptions.Builtin Exceptions.RuntimeError
            "asyncio.run() cannot be called from a running event loop"), w)
  else
    match Environment.__init__ env base_url api_key with
    | Effects.Raise e =>
        Wrapper.generate_video false env rt steps_of prompt model output_path
          base_url api_key w = (Effects.Raise e, w)
    | Effects.Ok gen =>
        exists response w',
          Orchestrator.generate_video_async rt (steps_of gen) prompt
            output_path None w = (Effects.Ok response, w')
          /\ Wrapper.generate_video false env rt steps_of prompt model
               output_path base_url api_key w
             = (Effects.Ok (Wrapper.path_or_empty response), w')
          /\ (Models.is_success response = true ->
              Models.video_path response
              = Some (Wrapper.path_or_empty response))
          /\ (Models.is_success response = false ->
              Wrapper.path_or_empty response = "")
    end.
Proof.
  destruct loop_running; [reflexivity|].
  unfold Wrapper.generate_video, Wrapper.asyncio_run, Wrapper._run.
  destruct (Environment.__init__ env base_url api_key) as [gen|e];
    [|reflexivity].
  destruct (generate_video_async_returns rt (steps_of gen) prompt output_path
              None w) as (response & w' & E).
  exists response, w'. split; [exact E|]. unfold Effects.bind. rewrite E.
  split; [reflexivity|]. unfold Wrapper.path_or_empty, Models.is_success.
  destruct (Models.success response), (Models.video_path response);
    cbn; split; intros; congruence.
Qed.

(** ** The download URL *)

(** X27: an absolute and a relative URI give the same download URL. When
    the vendor host does not occur in [relative_path], the URI made of the
    host followed by it is rewritten to the URL that [relative_path] alone
    is rewritten to, for every base URL. *)
Theorem parse_video_uri_absolute_relative (relative_path base_url : string) :
  PyStr.contains relative_path Utils.GOOGLE_HOST = false ->
  Utils.parse_video_uri (Utils.GOOGLE_HOST +:+ relative_path) base_url
  = Utils.parse_video_uri relative_path base_url.
Proof.
  intros H. unfold Utils.parse_video_uri.
  assert (F : PyStr.find_from Utils.GOOGLE_HOST relative_path 0 = None).
  { unfold PyStr.contains, PyStr.find in H.
    destruct (PyStr.find_from _ _ _); [discriminate | reflexivity]. }
  assert (S : PyStr.startswith relative_path Utils.GOOGLE_HOST = false).
  { unfold PyStr.startswith. destruct relative_path as [|c s]; [reflexivity|].
    cbn [PyStr.find_from] in F.
    destruct (String.prefix Utils.GOOGLE_HOST (String c s));
      [discriminate | reflexivity]. }
  rewrite S. unfold PyStr.startswith. rewrite prefix_append.
  unfold PyStr.replace, Utils.GOOGLE_HOST in *.
  rewrite replace_scan_leading, append_nil_l.
  now rewrite (replace_scan_absent _ _ _ _ F).
Qed.

Lemma parse_video_uri_absolute_relative_witness :
  Utils.parse_video_uri
    (Utils.GOOGLE_HOST +:+ "v1beta/files/abc123")
    "https://api.thucchien.ai/gemini/v1beta"
  = Utils.parse_video_uri "v1beta/files/abc123"
      "https://api.thucchien.ai/gemini/v1beta".
Proof.
  apply (parse_video_uri_absolute_relative "v1beta/files/abc123"
           "https://api.thucchien.ai/gemini/v1beta").
  reflexivity.
Defined.
